(** * Versioned-record orchestration of the passw0rd Go SDK

    A shallow embedding of [protocol.go] and [models.go] (package
    [passw0rd]): protocol construction, account enrollment, password
    verification and the forward migration of enrollment records across
    key epochs.

    The cryptographic primitives ([phe-go]), the HTTP client of the remote
    service and the JSON codec of the Go standard library are collaborators
    of the orchestrator.  They are kept abstract (an interface, see
    [Collaborators]) and every call made to them is recorded in a trace, so
    that statements such as "no remote call is made" can be phrased. *)

From Stdlib Require Import ZArith List Bool Lia.
From Stdlib Require Import Strings.String Strings.Ascii Strings.Byte DecimalString.
From stdpp Require Import base option gmap.

Import ListNotations.
Local Open Scope string_scope.
Local Open Scope list_scope.
Local Open Scope Z_scope.

(** ** Go values *)

Module Go.

(** A pointer is either [nil] or refers to a value. *)
Definition ptr (A : Type) : Type := option A.

(** A byte slice; [None] is the nil slice.  The orchestrator only ever
    observes the length of a slice. *)
Definition bytes : Type := list Byte.byte.
Definition slice : Type := option bytes.

Definition len (s : slice) : Z :=
  match s with
  | None => 0
  | Some b => Z.of_nat (length b)
  end.

(** [[]byte(password)] *)
Definition bytes_of (s : string) : slice := Some (list_byte_of_string s).

(** [int] on the 64-bit platforms the SDK targets. *)
Definition int_min : Z := - 2 ^ 63.
Definition int_max : Z := 2 ^ 63 - 1.
Definition is_int (z : Z) : Prop := int_min <= z <= int_max.
Definition wrap (z : Z) : Z := (z + 2 ^ 63) mod 2 ^ 64 - 2 ^ 63.
Definition add (x y : Z) : Z := wrap (x + y).

(** [map[int]*V]: [None] is the nil map, and a key may be bound to a nil
    pointer. *)
Definition intmap (V : Type) : Type := option (gmap Z (ptr V)).

(** [v, ok := m[k]]; reading a nil map finds nothing. *)
Definition index {V : Type} (m : intmap V) (k : Z) : ptr V * bool :=
  match m with
  | None => (None, false)
  | Some g =>
      match g !! k with
      | None => (None, false)
      | Some v => (v, true)
      end
  end.

(** Errors, by the way they are built.  [errors.New], [errors.Wrap] and
    [fmt.Errorf] are the constructors the orchestrator uses itself;
    [Foreign] stands for an error value of any other dynamic type, as the
    collaborators produce them. *)
Inductive error : Type :=
| New (message : string)
| Wrapped (cause : error) (message : string)
| Errorf (format : string) (arg : Z)
| Sentinel (name : string)
| Foreign (description : string).

(** [errors.Wrap] of github.com/pkg/errors: wrapping nil gives nil. *)
Definition Wrap (err : option error) (message : string) : option error :=
  match err with
  | None => None
  | Some e => Some (Wrapped e message)
  end.

End Go.

Import Go.

(** ** The collaborators' types ([github.com/passw0rd/phe-go])

    The orchestrator never looks inside these values. *)

Module phe.

Class types : Type := {
  Client : Type;
  UpdateToken : Type;
  EnrollmentRecord : Type;
  EnrollmentResponse : Type;
  VerifyPasswordRequest : Type;
  VerifyPasswordResponse : Type
}.

End phe.

(** ** models.go *)

Module EnrollmentRequest.
Record t : Type := mk { Version : Z }.
End EnrollmentRequest.

Module EnrollmentResponse.
Record t {T : phe.types} : Type :=
  mk { Version : Z; Enrollment : ptr phe.EnrollmentResponse }.
End EnrollmentResponse.

Module EnrollmentRecord.
Record t {T : phe.types} : Type :=
  mk { Version : Z; Enrollment : ptr phe.EnrollmentRecord }.
End EnrollmentRecord.

Module VerifyPasswordRequest.
Record t {T : phe.types} : Type :=
  mk { Version : Z; Request : ptr phe.VerifyPasswordRequest }.
End VerifyPasswordRequest.

Module VerifyPasswordResponse.
Record t {T : phe.types} : Type :=
  mk { Response : ptr phe.VerifyPasswordResponse }.
End VerifyPasswordResponse.

(** ** Declarations of the package that protocol.go relies on *)

(** Modelled from the spec: the type [APIClient], the handle of the Remote
    Verification Endpoint, is declared outside protocol.go and models.go.
    protocol.go builds it from the application identity alone; its two
    remote calls are operations of the collaborators below. *)
Module APIClient.
Record t : Type := mk { AppID : string }.
End APIClient.

(** Modelled from the spec: the type [Context], the configuration handed
    to [NewProtocol], is declared outside protocol.go and models.go.  Its
    fields are the ones [NewProtocol] reads: the app identity, the two epoch
    registries and the current version. *)
Module Context.
Record t {T : phe.types} : Type := mk {
  AppId : string;
  PHEClients : intmap phe.Client;
  UpdateTokens : intmap phe.UpdateToken;
  Version : Z
}.
End Context.

(** Modelled from the spec: the package-level error value
    [ErrInvalidPassword] is declared outside protocol.go; the spec calls it
    the [InvalidPassword] error kind, raised for a well-formed but empty
    derived key. *)
Definition ErrInvalidPassword : error := Sentinel "ErrInvalidPassword".

(** ** protocol.go: the [Protocol] struct

    [once] is the done flag of the [sync.Once]. *)
Module Protocol.
Record t {T : phe.types} : Type := mk {
  AppID : string;
  PHEClients : intmap phe.Client;
  UpdateTokens : intmap phe.UpdateToken;
  APIClient : ptr APIClient.t;
  CurrentVersion : Z;
  once : bool
}.
End Protocol.

(** ** The collaborators' operations

    Methods of [*phe.Client], the function [phe.UpdateRecord], the two
    remote calls of [*APIClient], and [encoding/json] on the record
    envelope.  Each returns what the Go function returns, a nil error
    being [None]. *)
Class Collaborators {T : phe.types} : Type := {
  Client_EnrollAccount :
    phe.Client -> slice -> ptr phe.EnrollmentResponse ->
    ptr phe.EnrollmentRecord * slice * option error;
  Client_CreateVerifyPasswordRequest :
    phe.Client -> slice -> ptr phe.EnrollmentRecord ->
    ptr phe.VerifyPasswordRequest * option error;
  Client_CheckResponseAndDecrypt :
    phe.Client -> slice -> ptr phe.EnrollmentRecord ->
    ptr phe.VerifyPasswordResponse -> slice * option error;
  phe_UpdateRecord :
    ptr phe.EnrollmentRecord -> phe.UpdateToken ->
    ptr phe.EnrollmentRecord * option error;
  APIClient_GetEnrollment :
    ptr APIClient.t -> EnrollmentRequest.t ->
    ptr EnrollmentResponse.t * option error;
  APIClient_VerifyPassword :
    ptr APIClient.t -> VerifyPasswordRequest.t ->
    ptr VerifyPasswordResponse.t * option error;
  (** decoding of a JSON text other than [null] into the envelope *)
  json_decode : bytes -> error + EnrollmentRecord.t;
  json_Marshal : EnrollmentRecord.t -> slice * option error
}.

(** ** encoding/json on a [*EnrollmentRecord] target *)

Module json.

(** The four JSON white-space characters. *)
Definition is_space (b : Byte.byte) : bool :=
  match b with
  | x20 | x09 | x0a | x0d => true
  | _ => false
  end.

Fixpoint skip_space (data : bytes) : bytes :=
  match data with
  | b :: rest => if is_space b then skip_space rest else data
  | [] => []
  end.

(** The text is the literal [null], white space around it allowed. *)
Definition is_null (data : bytes) : bool :=
  match skip_space data with
  | x6e :: x75 :: x6c :: x6c :: rest =>
      match skip_space rest with
      | [] => true
      | _ => false
      end
  | _ => false
  end.

(** [err = json.Unmarshal(data, &rec)] with [var rec *EnrollmentRecord]:
    the pair is the value of [rec] afterwards and the error.  For the
    literal [null] the decoder sets the pointer to nil and reports no
    error; any other text either fails or yields an allocated record. *)
Definition Unmarshal {T : phe.types} {C : Collaborators} (data : slice)
  : ptr EnrollmentRecord.t * option error :=
  let text := default [] data in
  if is_null text then (None, None)
  else match json_decode text with
       | inl e => (None, Some e)
       | inr r => (Some r, None)
       end.

End json.


(** ** Effects

    A method of [*Protocol] runs against the receiver it may update
    ([getClient] fills in [APIClient]) and makes calls to the
    collaborators.  A run threads the receiver and the list of calls made
    so far, oldest first; it ends by returning, or in a run-time panic. *)

Inductive event {T : phe.types} : Type :=
| LookupClient (version : Z)
| LookupToken (version : Z)
| CallGetEnrollment (client : ptr APIClient.t) (req : EnrollmentRequest.t)
| CallVerifyPassword (client : ptr APIClient.t) (req : VerifyPasswordRequest.t)
| CallEnrollAccount (c : phe.Client) (password : slice)
    (seed : ptr phe.EnrollmentResponse)
| CallCreateVerifyPasswordRequest (c : phe.Client) (password : slice)
    (rec : ptr phe.EnrollmentRecord)
| CallCheckResponseAndDecrypt (c : phe.Client) (password : slice)
    (rec : ptr phe.EnrollmentRecord) (resp : ptr phe.VerifyPasswordResponse)
| CallUpdateRecord (rec : ptr phe.EnrollmentRecord) (token : phe.UpdateToken).

Record world {T : phe.types} : Type := World {
  self : Protocol.t;
  calls : list event
}.

Inductive outcome (A : Type) : Type :=
| Returns (a : A)
| Panics (reason : string)
| Exhausted.

Arguments Returns {A} a.
Arguments Panics {A} reason.
Arguments Exhausted {A}.

Definition M {T : phe.types} (A : Type) : Type := world -> outcome A * world.

Section Monad.
Context {T : phe.types}.

Definition ret {A} (a : A) : M A := fun w => (Returns a, w).

Definition bind {A B} (m : M A) (k : A -> M B) : M B :=
  fun w =>
    match m w with
    | (Returns a, w') => k a w'
    | (Panics r, w') => (Panics r, w')
    | (Exhausted, w') => (Exhausted, w')
    end.

Definition panic {A} (reason : string) : M A := fun w => (Panics reason, w).

Definition exhausted {A} : M A := fun w => (Exhausted, w).

(** Read a field of the receiver. *)
Definition field {A} (f : Protocol.t -> A) : M A :=
  fun w => (Returns (f (self w)), w).

Definition store (p : Protocol.t) : M unit :=
  fun w => (Returns tt, World _ p (calls w)).

Definition record_call (e : event) : M unit :=
  fun w => (Returns tt, World _ (self w) (calls w ++ [e])).

End Monad.

Notation "'let*' x ':=' m 'in' k" := (bind m (fun x => k))
  (at level 10, x name, m at level 100, k at level 200).
Notation "'let*' ' p ':=' m 'in' k" :=
  (bind m (fun x => match x with p => k end))
  (at level 10, p pattern, m at level 100, k at level 200).
Notation "m ';;' k" := (bind m (fun _ => k))
  (at level 100, k at level 200, right associativity).

(** [nil_dereference] is the run-time panic of reading a field through a
    nil pointer. *)
Definition nil_dereference : string :=
  "invalid memory address or nil pointer dereference".

(** The error values protocol.go builds, under the names the specification
    gives to the kinds. *)
Definition InvalidConfiguration : error := New "invalid context".
Definition VersionMismatch : error := New "version mismatch".
Definition EpochUnavailable : error :=
  New "unable to find keys corresponding to this record's version".
Definition EnrollEpochUnavailable (version : Z) : error :=
  Errorf "unable to find keys for version %d" version.
Definition InvalidVersion : error :=
  New "record's version is greater than protocol's version".
Definition MissingUpdateToken : error :=
  New "protocol does not contain token to update record to the current version".

(** ** protocol.go: the operations *)

Section Orchestrator.
Context {T : phe.types} {C : Collaborators}.

(** [NewProtocol]: the argument is a [*Context], the result a
    [*Protocol] and an error.  The fields not listed in the composite
    literal take their zero value. *)
Definition NewProtocol (context : ptr Context.t)
  : ptr Protocol.t * option error :=
  match context with
  | None => (None, Some InvalidConfiguration)
  | Some ctx =>
      if (Context.AppId ctx =? EmptyString)%string
         || match Context.PHEClients ctx with None => true | Some _ => false end
      then (None, Some InvalidConfiguration)
      else (Some {| Protocol.PHEClients := Context.PHEClients ctx;
                    Protocol.UpdateTokens := Context.UpdateTokens ctx;
                    Protocol.AppID := Context.AppId ctx;
                    Protocol.CurrentVersion := Context.Version ctx;
                    Protocol.APIClient := None;
                    Protocol.once := false |}, None)
  end.

(** [getClient]: the body of [once.Do] runs on the first call only. *)
Definition getClient : M (ptr APIClient.t) :=
  let* done := field Protocol.once in
  (if done then ret tt
   else
     let* p := field id in
     store {| Protocol.AppID := Protocol.AppID p;
              Protocol.PHEClients := Protocol.PHEClients p;
              Protocol.UpdateTokens := Protocol.UpdateTokens p;
              Protocol.APIClient :=
                match Protocol.APIClient p with
                | None => Some {| APIClient.AppID := Protocol.AppID p |}
                | Some c => Some c
                end;
              Protocol.CurrentVersion := Protocol.CurrentVersion p;
              Protocol.once := true |});;
  field Protocol.APIClient.

Definition getPHE (version : Z) : M (ptr phe.Client) :=
  record_call (LookupClient version);;
  let* clients := field Protocol.PHEClients in
  let '(phe, ok) := index clients version in
  if negb ok then ret None else ret phe.

Definition getToken (version : Z) : M (ptr phe.UpdateToken) :=
  record_call (LookupToken version);;
  let* tokens := field Protocol.UpdateTokens in
  match tokens with
  | None => ret None
  | Some _ =>
      let '(token, ok) := index tokens version in
      if negb ok then ret None else ret token
  end.

(** The calls to the collaborators, recorded. *)
Definition GetEnrollment (client : ptr APIClient.t) (req : EnrollmentRequest.t)
  : M (ptr EnrollmentResponse.t * option error) :=
  record_call (CallGetEnrollment client req);;
  ret (APIClient_GetEnrollment client req).

Definition RemoteVerifyPassword (client : ptr APIClient.t)
    (req : VerifyPasswordRequest.t)
  : M (ptr VerifyPasswordResponse.t * option error) :=
  record_call (CallVerifyPassword client req);;
  ret (APIClient_VerifyPassword client req).

Definition PheEnrollAccount (c : phe.Client) (password : slice)
    (seed : ptr phe.EnrollmentResponse)
  : M (ptr phe.EnrollmentRecord * slice * option error) :=
  record_call (CallEnrollAccount c password seed);;
  ret (Client_EnrollAccount c password seed).

Definition CreateVerifyPasswordRequest (c : phe.Client) (password : slice)
    (rec : ptr phe.EnrollmentRecord)
  : M (ptr phe.VerifyPasswordRequest * option error) :=
  record_call (CallCreateVerifyPasswordRequest c password rec);;
  ret (Client_CreateVerifyPasswordRequest c password rec).

Definition CheckResponseAndDecrypt (c : phe.Client) (password : slice)
    (rec : ptr phe.EnrollmentRecord) (resp : ptr phe.VerifyPasswordResponse)
  : M (slice * option error) :=
  record_call (CallCheckResponseAndDecrypt c password rec resp);;
  ret (Client_CheckResponseAndDecrypt c password rec resp).

Definition UpdateRecord (rec : ptr phe.EnrollmentRecord)
    (token : phe.UpdateToken)
  : M (ptr phe.EnrollmentRecord * option error) :=
  record_call (CallUpdateRecord rec token);;
  ret (phe_UpdateRecord rec token).

Definition EnrollAccount (password : string)
  : M (slice * slice * option error) :=
  let* current := field Protocol.CurrentVersion in
  let req := {| EnrollmentRequest.Version := current |} in
  let* client := getClient in
  let* '(resp, err) := GetEnrollment client req in
  match err with
  | Some e => ret (None, None, Some e)
  | None =>
  match resp with
  | None => panic nil_dereference
  | Some resp =>
  let* phe := getPHE (EnrollmentResponse.Version resp) in
  match phe with
  | None =>
      ret (None, None,
           Some (EnrollEpochUnavailable (EnrollmentResponse.Version resp)))
  | Some phe =>
  let* '(rec, key, err) :=
    PheEnrollAccount phe (bytes_of password)
      (EnrollmentResponse.Enrollment resp) in
  match err with
  | Some _ => ret (None, None, Wrap err "could not enroll account")
  | None =>
  let* current := field Protocol.CurrentVersion in
  let versionedRec :=
    {| EnrollmentRecord.Version := current;
       EnrollmentRecord.Enrollment := rec |} in
  let '(enrollmentRecord, err) := json_Marshal versionedRec in
  match err with
  | Some _ =>
      ret (None, None, Wrap err "could not serialize enrollment record")
  | None => ret (enrollmentRecord, key, None)
  end end end end end.

Definition VerifyPassword (password : string) (enrollmentRecord : slice)
  : M (slice * option error) :=
  let '(rec, err) := json.Unmarshal enrollmentRecord in
  match err with
  | Some e => ret (None, Some e)
  | None =>
  match rec with
  | None => panic nil_dereference
  | Some rec =>
  let* current := field Protocol.CurrentVersion in
  if negb (EnrollmentRecord.Version rec =? current)
  then ret (None, Some VersionMismatch)
  else
  let* phe := getPHE (EnrollmentRecord.Version rec) in
  match phe with
  | None => ret (None, Some EpochUnavailable)
  | Some phe =>
  let* '(req, err) :=
    CreateVerifyPasswordRequest phe (bytes_of password)
      (EnrollmentRecord.Enrollment rec) in
  match err with
  | Some _ =>
      ret (None, Wrap err "could not create verify password request")
  | None =>
  let versionedReq :=
    {| VerifyPasswordRequest.Version := EnrollmentRecord.Version rec;
       VerifyPasswordRequest.Request := req |} in
  let* client := getClient in
  let* '(resp, err) := RemoteVerifyPassword client versionedReq in
  match err, resp with
  | None, Some resp =>
      let* '(key, err) :=
        CheckResponseAndDecrypt phe (bytes_of password)
          (EnrollmentRecord.Enrollment rec)
          (VerifyPasswordResponse.Response resp) in
      match err with
      | Some _ => ret (None, Wrap err "error after requesting service")
      | None =>
          if len key =? 0 then ret (None, Some ErrInvalidPassword)
          else ret (key, None)
      end
  | _, _ => ret (None, Wrap err "error while requesting service")
  end end end end end.

(** What leaves the [for] loop of [UpdateEnrollmentRecord]: the loop
    condition failed ([Break], with the value of [newRec]), or a [return]
    inside the body. *)
Inductive loop_exit : Type :=
| Break (newRec : ptr phe.EnrollmentRecord)
| Return (newRecord : slice) (err : option error).

(** [for recVersion < p.CurrentVersion { ... recVersion++ }]; [rec] is
    not assigned to inside the loop.  [fuel] bounds the number of times the
    condition is evaluated. *)
Fixpoint update_loop (fuel : nat) (rec : EnrollmentRecord.t)
    (newRec : ptr phe.EnrollmentRecord) (recVersion : Z) : M loop_exit :=
  match fuel with
  | O => exhausted
  | S fuel =>
      let* current := field Protocol.CurrentVersion in
      if recVersion <? current then
        let* token := getToken (add recVersion 1) in
        match token with
        | None => ret (Return None (Some MissingUpdateToken))
        | Some token =>
            let* '(newRec, err) :=
              UpdateRecord (EnrollmentRecord.Enrollment rec) token in
            match err with
            | Some e => ret (Return None (Some e))
            | None => update_loop fuel rec newRec (add recVersion 1)
            end
        end
      else ret (Break newRec)
  end.

Definition UpdateEnrollmentRecord (oldRecord : slice)
  : M (slice * option error) :=
  let '(rec, err) := json.Unmarshal oldRecord in
  match err with
  | Some e => ret (None, Some e)
  | None =>
  match rec with
  | None => panic nil_dereference
  | Some rec =>
  let* current := field Protocol.CurrentVersion in
  if EnrollmentRecord.Version rec =? current then ret (oldRecord, None)
  else
  if EnrollmentRecord.Version rec >? current
  then ret (None, Some InvalidVersion)
  else
  let recVersion := EnrollmentRecord.Version rec in
  let* exit :=
    update_loop (S (Z.to_nat (current - recVersion))) rec None recVersion in
  match exit with
  | Return newRecord err => ret (newRecord, err)
  | Break newRec =>
      let* current := field Protocol.CurrentVersion in
      let rec' :=
        {| EnrollmentRecord.Version := current;
           EnrollmentRecord.Enrollment := newRec |} in
      ret (json_Marshal rec')
  end end end.

(** [getCurrentPHE] *)
Definition getCurrentPHE : M (ptr phe.Client) :=
  let* clients := field Protocol.PHEClients in
  let* current := field Protocol.CurrentVersion in
  ret (fst (index clients current)).

(** Running a method on a receiver, from an empty list of calls. *)
Definition run {A} (m : M A) (p : Protocol.t) : outcome A * world :=
  m (World _ p []).

End Orchestrator.

(** ** The helper methods as plain functions of the receiver *)

Section Readings.
Context {T : phe.types}.

Definition lookupClient (p : Protocol.t) (version : Z) : ptr phe.Client :=
  fst (index (Protocol.PHEClients p) version).

Definition lookupToken (p : Protocol.t) (version : Z) : ptr phe.UpdateToken :=
  fst (index (Protocol.UpdateTokens p) version).

(** The receiver after [getClient], and the client it hands out. *)
Definition with_client (p : Protocol.t) : Protocol.t :=
  if Protocol.once p then p
  else {| Protocol.AppID := Protocol.AppID p;
          Protocol.PHEClients := Protocol.PHEClients p;
          Protocol.UpdateTokens := Protocol.UpdateTokens p;
          Protocol.APIClient :=
            match Protocol.APIClient p with
            | None => Some {| APIClient.AppID := Protocol.AppID p |}
            | Some c => Some c
            end;
          Protocol.CurrentVersion := Protocol.CurrentVersion p;
          Protocol.once := true |}.

Definition client_of (p : Protocol.t) : ptr APIClient.t :=
  Protocol.APIClient (with_client p).

(** A registry of clients that holds no entry at all. *)
Definition registry_empty (m : intmap phe.Client) : Prop :=
  forall version, index m version = (None, false).

End Readings.

(** ** Test doubles

    Stand-ins for the collaborators, used to run the operations on
    concrete inputs.  Blobs, seeds, challenges and responses are short
    texts; a client is the number of the epoch whose keys it holds; an
    update token is the number of the epoch it leads to, token [0] being a
    token the transformation rejects.  Applying a token appends its name
    to the blob, so that a blob shows the transformations it went
    through. *)

Module Double.

#[global] Instance types : phe.types := {|
  phe.Client := Z;
  phe.UpdateToken := Z;
  phe.EnrollmentRecord := string;
  phe.EnrollmentResponse := string;
  phe.VerifyPasswordRequest := string;
  phe.VerifyPasswordResponse := string
|}.

(** The double-quote character. *)
Definition q : string := String (ascii_of_byte x22) EmptyString.

Definition decimal (z : Z) : string := NilZero.string_of_int (Z.to_int z).

(** The envelope as [json.Marshal] writes it. *)
Definition envelope (version : Z) (blob : ptr string) : string :=
  ("{" ++ q ++ "version" ++ q ++ ":" ++ decimal version ++ ","
       ++ q ++ "enrollment" ++ q ++ ":"
       ++ match blob with
          | None => "null"
          | Some b => q ++ b ++ q
          end
       ++ "}")%string.

Definition text (s : string) : slice := Some (list_byte_of_string s).

Fixpoint strip_prefix (pre s : string) : option string :=
  match pre with
  | EmptyString => Some s
  | String a pre' =>
      match s with
      | String b s' => if Ascii.eqb a b then strip_prefix pre' s' else None
      | EmptyString => None
      end
  end.

Definition is_digit (a : ascii) : bool :=
  (48 <=? Z.of_nat (nat_of_ascii a)) && (Z.of_nat (nat_of_ascii a) <=? 57).

(** The longest prefix whose characters satisfy [keep], and the rest. *)
Fixpoint span (keep : ascii -> bool) (s : string) : string * string :=
  match s with
  | EmptyString => (EmptyString, EmptyString)
  | String a s' =>
      if keep a then let '(l, r) := span keep s' in (String a l, r)
      else (EmptyString, s)
  end.

Definition syntax_error : error := Foreign "json: syntax error".

Definition decode_blob (s : string) : error + ptr string :=
  if (s =? "null}")%string then inr None
  else
    match strip_prefix q s with
    | None => inl syntax_error
    | Some s' =>
        let '(body, rest) :=
          span (fun a => negb (Ascii.eqb a (ascii_of_byte x22))) s' in
        if (rest =? (q ++ "}"))%string then inr (Some body)
        else inl syntax_error
    end.

(** Decoding of the compact texts [envelope] writes, and of an object
    with the version field alone. *)
Definition decode (s : string) : error + EnrollmentRecord.t :=
  match strip_prefix ("{" ++ q ++ "version" ++ q ++ ":")%string s with
  | None => inl syntax_error
  | Some s1 =>
      let '(digits, s2) := span is_digit s1 in
      match NilZero.uint_of_string digits with
      | None => inl syntax_error
      | Some n =>
          let version := Z.of_uint n in
          if (s2 =? "}")%string then
            inr {| EnrollmentRecord.Version := version;
                   EnrollmentRecord.Enrollment := None |}
          else
            match strip_prefix ("," ++ q ++ "enrollment" ++ q ++ ":")%string s2 with
            | None => inl syntax_error
            | Some s3 =>
                match decode_blob s3 with
                | inl e => inl e
                | inr blob =>
                    inr {| EnrollmentRecord.Version := version;
                           EnrollmentRecord.Enrollment := blob |}
                end
            end
      end
  end.

(** What the remote service and the decryption answer in a given run. *)
Record script : Type := Script {
  server_epoch : Z;
  verify_reply : ptr VerifyPasswordResponse.t * option error;
  decrypt_reply : slice * option error
}.

Definition collaborators (s : script) : Collaborators := {|
  Client_EnrollAccount := fun c password seed =>
    (Some ("c" ++ decimal c ++ ":" ++ default EmptyString seed)%string,
     password, None);
  Client_CreateVerifyPasswordRequest := fun c password rec =>
    (Some "challenge", None);
  Client_CheckResponseAndDecrypt := fun c password rec resp =>
    decrypt_reply s;
  phe_UpdateRecord := fun rec token =>
    if token =? 0 then (None, Some (Foreign "phe: invalid update token"))
    else match rec with
         | None => (None, Some (Foreign "phe: invalid record"))
         | Some blob => (Some (blob ++ "+t" ++ decimal token)%string, None)
         end;
  APIClient_GetEnrollment := fun client req =>
    (Some {| EnrollmentResponse.Version := server_epoch s;
             EnrollmentResponse.Enrollment := Some "seed" |}, None);
  APIClient_VerifyPassword := fun client req => verify_reply s;
  json_decode := fun data => decode (string_of_list_byte data);
  json_Marshal := fun rec =>
    (text (envelope (EnrollmentRecord.Version rec)
             (EnrollmentRecord.Enrollment rec)), None)
|}.

(** A service at the epoch [epoch] that answers verification with a
    response, decryption then yielding the key [key]. *)
Definition honest (epoch : Z) (key : slice) : script :=
  {| server_epoch := epoch;
     verify_reply :=
       (Some {| VerifyPasswordResponse.Response := Some "response" |}, None);
     decrypt_reply := (key, None) |}.

(** A protocol as [NewProtocol] builds it. *)
Definition protocol (current : Z) (clients : intmap Z) (tokens : intmap Z)
  : Protocol.t :=
  {| Protocol.AppID := "app";
     Protocol.PHEClients := clients;
     Protocol.UpdateTokens := tokens;
     Protocol.APIClient := None;
     Protocol.CurrentVersion := current;
     Protocol.once := false |}.

End Double.

(** ** Migration as the specification words it

    "Walk forward one epoch at a time ...: apply the token to transform
    the current opaque blob into the blob for the next epoch."  The walk
    covers [steps] epochs after [version]; it has no result when a token is
    missing or a transformation fails. *)

Section SpecifiedMigration.
Context {T : phe.types} {C : Collaborators}.

Fixpoint chained_blob (p : Protocol.t) (steps : nat) (version : Z)
    (blob : ptr phe.EnrollmentRecord) : option (ptr phe.EnrollmentRecord) :=
  match steps with
  | O => Some blob
  | S steps =>
      match lookupToken p (version + 1) with
      | None => None
      | Some token =>
          match phe_UpdateRecord blob token with
          | (_, Some _) => None
          | (next, None) => chained_blob p steps (version + 1) next
          end
      end
  end.

Definition spec_migrate (p : Protocol.t) (rec : EnrollmentRecord.t)
  : option (ptr phe.EnrollmentRecord) :=
  chained_blob p
    (Z.to_nat (Protocol.CurrentVersion p - EnrollmentRecord.Version rec))
    (EnrollmentRecord.Version rec) (EnrollmentRecord.Enrollment rec).

(** The calls the loop of [UpdateEnrollmentRecord] makes over [steps]
    epochs after [version] when every token is there and every
    transformation succeeds: each token is applied to the blob of the
    record that was passed in. *)
Fixpoint loop_calls (p : Protocol.t) (blob : ptr phe.EnrollmentRecord)
    (steps : nat) (version : Z) : list event :=
  match steps with
  | O => []
  | S steps =>
      LookupToken (version + 1)
      :: match lookupToken p (version + 1) with
         | None => []
         | Some token =>
             CallUpdateRecord blob token
             :: loop_calls p blob steps (version + 1)
         end
  end.

(** The blob the loop ends with. *)
Definition final_blob (p : Protocol.t) (blob : ptr phe.EnrollmentRecord)
  : ptr phe.EnrollmentRecord :=
  match lookupToken p (Protocol.CurrentVersion p) with
  | None => None
  | Some token => fst (phe_UpdateRecord blob token)
  end.

End SpecifiedMigration.

(** ** Collaborators with one answer replaced

    The same collaborators, except that the service answers every request
    for an enrollment seed with [reply], or that every client answers the
    request to build a challenge with [reply]. *)

Section Replaced.
Context {T : phe.types}.

Definition answering_enrollment (C : Collaborators)
    (reply : ptr EnrollmentResponse.t * option error) : Collaborators :=
  {| Client_EnrollAccount := @Client_EnrollAccount T C;
     Client_CreateVerifyPasswordRequest :=
       @Client_CreateVerifyPasswordRequest T C;
     Client_CheckResponseAndDecrypt := @Client_CheckResponseAndDecrypt T C;
     phe_UpdateRecord := @phe_UpdateRecord T C;
     APIClient_GetEnrollment := fun _ _ => reply;
     APIClient_VerifyPassword := @APIClient_VerifyPassword T C;
     json_decode := @json_decode T C;
     json_Marshal := @json_Marshal T C |}.

Definition answering_challenge (C : Collaborators)
    (reply : ptr phe.VerifyPasswordRequest * option error) : Collaborators :=
  {| Client_EnrollAccount := @Client_EnrollAccount T C;
     Client_CreateVerifyPasswordRequest := fun _ _ _ => reply;
     Client_CheckResponseAndDecrypt := @Client_CheckResponseAndDecrypt T C;
     phe_UpdateRecord := @phe_UpdateRecord T C;
     APIClient_GetEnrollment := @APIClient_GetEnrollment T C;
     APIClient_VerifyPassword := @APIClient_VerifyPassword T C;
     json_decode := @json_decode T C;
     json_Marshal := @json_Marshal T C |}.

End Replaced.

(** ** What a call may not change

    The receiver [p'] has the configuration of [p]: the same app identity,
    registries and current version. *)

Definition same_configuration {T : phe.types} (p p' : Protocol.t) : Prop :=
  Protocol.AppID p' = Protocol.AppID p /\
  Protocol.PHEClients p' = Protocol.PHEClients p /\
  Protocol.UpdateTokens p' = Protocol.UpdateTokens p /\
  Protocol.CurrentVersion p' = Protocol.CurrentVersion p.

(** ** The transformations of a run

    The calls to [phe.UpdateRecord] a run has made, oldest first, each with
    the blob and the token it was given; the error of the first of them
    that failed, if any; and the blobs the transformation for an epoch may
    be handed when migrating [rec]: the record's own blob at the first
    epoch after the record's, any blob at a later one. *)

Section Transformations.
Context {T : phe.types} {C : Collaborators}.

Fixpoint transformations (calls : list event)
  : list (ptr phe.EnrollmentRecord * phe.UpdateToken) :=
  match calls with
  | [] => []
  | CallUpdateRecord blob token :: rest =>
      (blob, token) :: transformations rest
  | _ :: rest => transformations rest
  end.

Fixpoint first_failure
    (made : list (ptr phe.EnrollmentRecord * phe.UpdateToken))
  : option error :=
  match made with
  | [] => None
  | (blob, token) :: rest =>
      match snd (phe_UpdateRecord blob token) with
      | Some e => Some e
      | None => first_failure rest
      end
  end.

Definition may_receive (rec : EnrollmentRecord.t) (epoch : Z)
    (blob : ptr phe.EnrollmentRecord) : Prop :=
  epoch = EnrollmentRecord.Version rec + 1 ->
  blob = EnrollmentRecord.Enrollment rec.

End Transformations.

(** * Properties *)

(** ** Go arithmetic *)

Section GoArithmetic.

Lemma wrap_id z : is_int z -> wrap z = z.
Proof.
  unfold is_int, int_min, int_max, wrap. intros Hz.
  rewrite Z.mod_small; lia.
Qed.

Lemma add_1_below x y : is_int x -> is_int y -> x < y -> add x 1 = x + 1.
Proof.
  unfold add. intros Hx Hy Hlt. apply wrap_id.
  unfold is_int, int_min, int_max in *. lia.
Qed.

End GoArithmetic.

(** ** The helper methods *)

Section Helpers.
Context {T : phe.types} {C : Collaborators}.

Lemma bind_returns {A B} (m : M A) (k : A -> M B) w a w' :
  m w = (Returns a, w') -> bind m k w = k a w'.
Proof. unfold bind. intros ->. reflexivity. Qed.

Lemma bind_ret {A B} (a : A) (k : A -> M B) w : bind (ret a) k w = k a w.
Proof. reflexivity. Qed.

Lemma bind_field {A B} (f : Protocol.t -> A) (k : A -> M B) w :
  bind (field f) k w = k (f (self w)) w.
Proof. reflexivity. Qed.

Lemma update_loop_unfold fuel rec newRec recVersion :
  update_loop (S fuel) rec newRec recVersion =
  (let* current := field Protocol.CurrentVersion in
   if recVersion <? current then
     let* token := getToken (add recVersion 1) in
     match token with
     | None => ret (Return None (Some MissingUpdateToken))
     | Some token =>
         let* '(newRec, err) :=
           UpdateRecord (EnrollmentRecord.Enrollment rec) token in
         match err with
         | Some e => ret (Return None (Some e))
         | None => update_loop fuel rec newRec (add recVersion 1)
         end
     end
   else ret (Break newRec)).
Proof. reflexivity. Qed.

Lemma getPHE_run version w :
  getPHE version w =
  (Returns (lookupClient (self w) version),
   World _ (self w) (calls w ++ [LookupClient version])).
Proof.
  unfold getPHE, lookupClient, index, bind, record_call, field, ret. cbn.
  destruct (Protocol.PHEClients (self w)) as [g|]; [|reflexivity].
  destruct (g !! version); reflexivity.
Qed.

Lemma getToken_run version w :
  getToken version w =
  (Returns (lookupToken (self w) version),
   World _ (self w) (calls w ++ [LookupToken version])).
Proof.
  unfold getToken, lookupToken, bind, record_call, field, ret. cbn.
  destruct (Protocol.UpdateTokens (self w)) as [g|] eqn:Et; [|reflexivity].
  cbn. destruct (g !! version) as [tk|]; reflexivity.
Qed.

Lemma getClient_run w :
  getClient w =
  (Returns (client_of (self w)), World _ (with_client (self w)) (calls w)).
Proof.
  unfold getClient, client_of, with_client, bind, field, store, ret.
  destruct w as [p l]. cbn. destruct (Protocol.once p); reflexivity.
Qed.

Lemma bind_getPHE {B} version (k : ptr phe.Client -> M B) w :
  bind (getPHE version) k w =
  k (lookupClient (self w) version)
    (World _ (self w) (calls w ++ [LookupClient version])).
Proof. apply bind_returns, getPHE_run. Qed.

Lemma bind_getToken {B} version (k : ptr phe.UpdateToken -> M B) w :
  bind (getToken version) k w =
  k (lookupToken (self w) version)
    (World _ (self w) (calls w ++ [LookupToken version])).
Proof. apply bind_returns, getToken_run. Qed.

Lemma bind_getClient {B} (k : ptr APIClient.t -> M B) w :
  bind getClient k w =
  k (client_of (self w)) (World _ (with_client (self w)) (calls w)).
Proof. apply bind_returns, getClient_run. Qed.

Lemma bind_UpdateRecord {B} blob token
    (k : ptr phe.EnrollmentRecord * option error -> M B) w :
  bind (UpdateRecord blob token) k w =
  k (phe_UpdateRecord blob token)
    (World _ (self w) (calls w ++ [CallUpdateRecord blob token])).
Proof. reflexivity. Qed.

Lemma bind_CreateVerifyPasswordRequest {B} c password blob
    (k : ptr phe.VerifyPasswordRequest * option error -> M B) w :
  bind (CreateVerifyPasswordRequest c password blob) k w =
  k (Client_CreateVerifyPasswordRequest c password blob)
    (World _ (self w)
       (calls w ++ [CallCreateVerifyPasswordRequest c password blob])).
Proof. reflexivity. Qed.

Lemma bind_RemoteVerifyPassword {B} client req
    (k : ptr VerifyPasswordResponse.t * option error -> M B) w :
  bind (RemoteVerifyPassword client req) k w =
  k (APIClient_VerifyPassword client req)
    (World _ (self w) (calls w ++ [CallVerifyPassword client req])).
Proof. reflexivity. Qed.

Lemma bind_CheckResponseAndDecrypt {B} c password blob resp
    (k : slice * option error -> M B) w :
  bind (CheckResponseAndDecrypt c password blob resp) k w =
  k (Client_CheckResponseAndDecrypt c password blob resp)
    (World _ (self w)
       (calls w ++ [CallCheckResponseAndDecrypt c password blob resp])).
Proof. reflexivity. Qed.

Lemma with_client_CurrentVersion p :
  Protocol.CurrentVersion (with_client p) = Protocol.CurrentVersion p.
Proof. unfold with_client. destruct (Protocol.once p); reflexivity. Qed.

Lemma with_client_PHEClients p :
  Protocol.PHEClients (with_client p) = Protocol.PHEClients p.
Proof. unfold with_client. destruct (Protocol.once p); reflexivity. Qed.

Lemma lookupToken_nil p version :
  Protocol.UpdateTokens p = None -> lookupToken p version = None.
Proof. unfold lookupToken. intros ->. reflexivity. Qed.

End Helpers.

(** One step through the next call of an operation. *)
Ltac advance :=
  first [ rewrite bind_field
        | rewrite bind_getPHE
        | rewrite bind_getToken
        | rewrite bind_getClient
        | rewrite bind_UpdateRecord
        | rewrite bind_CreateVerifyPasswordRequest
        | rewrite bind_RemoteVerifyPassword
        | rewrite bind_CheckResponseAndDecrypt ];
  cbn [self calls app].

(** The run has come to a [return]. *)
Ltac returned := cbn; first [ congruence | intros [= <- <- <-]; congruence ].
(** ** Verification and migration: the version checks *)

Section VersionChecks.
Context {T : phe.types} {C : Collaborators}.

(** C6. A well-formed record whose version differs from [CurrentVersion],
    whether lower or higher, makes [VerifyPassword] fail with
    [VersionMismatch] whatever the password; the receiver is left as it
    was and no call is made: no registry lookup, no cryptographic
    computation, no remote call. *)
Theorem VerifyPassword_version_mismatch
    (p : Protocol.t) (password : string) (enrollmentRecord : slice)
    (rec : EnrollmentRecord.t) :
  json.Unmarshal enrollmentRecord = (Some rec, None) ->
  EnrollmentRecord.Version rec <> Protocol.CurrentVersion p ->
  run (VerifyPassword password enrollmentRecord) p =
  (Returns (None, Some VersionMismatch), World _ p []).
Proof.
  intros Hdec Hne. unfold run, VerifyPassword. rewrite Hdec.
  unfold bind, field, ret. cbn.
  apply Z.eqb_neq in Hne. rewrite Hne. reflexivity.
Qed.

(** C8. A well-formed record already at [CurrentVersion] is returned as
    the very byte string that was passed in, with no error; no token is
    looked up and no transformation is run. *)
Theorem UpdateEnrollmentRecord_current_unchanged
    (p : Protocol.t) (oldRecord : slice) (rec : EnrollmentRecord.t) :
  json.Unmarshal oldRecord = (Some rec, None) ->
  EnrollmentRecord.Version rec = Protocol.CurrentVersion p ->
  run (UpdateEnrollmentRecord oldRecord) p =
  (Returns (oldRecord, None), World _ p []).
Proof.
  intros Hdec Heq. unfold run, UpdateEnrollmentRecord. rewrite Hdec.
  unfold bind, field, ret. cbn.
  apply Z.eqb_eq in Heq. rewrite Heq. reflexivity.
Qed.

(** C10. A well-formed record whose version is above [CurrentVersion] is
    rejected with [InvalidVersion]: no record comes back, and nothing is
    looked up or transformed. *)
Theorem UpdateEnrollmentRecord_future_version
    (p : Protocol.t) (oldRecord : slice) (rec : EnrollmentRecord.t) :
  json.Unmarshal oldRecord = (Some rec, None) ->
  EnrollmentRecord.Version rec > Protocol.CurrentVersion p ->
  run (UpdateEnrollmentRecord oldRecord) p =
  (Returns (None, Some InvalidVersion), World _ p []).
Proof.
  intros Hdec Hgt. unfold run, UpdateEnrollmentRecord. rewrite Hdec.
  unfold bind, field, ret. cbn.
  replace (_ =? _) with false by (symmetry; apply Z.eqb_neq; lia).
  replace (_ >? _) with true by (symmetry; apply Z.gtb_lt; lia).
  reflexivity.
Qed.

End VersionChecks.


(** ** The migration loop *)

Section MigrationLoop.
Context {T : phe.types} {C : Collaborators}.
Variables (p : Protocol.t) (rec : EnrollmentRecord.t).

Local Abbreviation current := (Protocol.CurrentVersion p).
Local Abbreviation blob := (EnrollmentRecord.Enrollment rec).

Hypothesis current_int : is_int current.

Lemma update_loop_done fuel newRec v l :
  current <= v ->
  update_loop (S fuel) rec newRec v (World _ p l) =
  (Returns (Break newRec), World _ p l).
Proof.
  intros Hle. rewrite update_loop_unfold, bind_field. cbn [self].
  replace (v <? Protocol.CurrentVersion p) with false
    by (symmetry; apply Z.ltb_ge; assumption).
  reflexivity.
Qed.

Lemma update_loop_missing fuel newRec v l :
  is_int v -> v < current ->
  lookupToken p (v + 1) = None ->
  update_loop (S fuel) rec newRec v (World _ p l) =
  (Returns (Return None (Some MissingUpdateToken)),
   World _ p (l ++ [LookupToken (v + 1)])).
Proof.
  intros Hv Hlt Htk. rewrite update_loop_unfold, bind_field. cbn [self].
  replace (v <? Protocol.CurrentVersion p) with true
    by (symmetry; apply Z.ltb_lt; assumption).
  rewrite (add_1_below v current) by assumption.
  rewrite bind_getToken. cbn [self calls]. rewrite Htk. reflexivity.
Qed.

Lemma update_loop_step fuel newRec v l token :
  is_int v -> v < current ->
  lookupToken p (v + 1) = Some token ->
  update_loop (S fuel) rec newRec v (World _ p l) =
  match phe_UpdateRecord blob token with
  | (_, Some e) =>
      (Returns (Return None (Some e)),
       World _ p (l ++ [LookupToken (v + 1); CallUpdateRecord blob token]))
  | (next, None) =>
      update_loop fuel rec next (v + 1)
        (World _ p (l ++ [LookupToken (v + 1); CallUpdateRecord blob token]))
  end.
Proof.
  intros Hv Hlt Htk. rewrite update_loop_unfold, bind_field. cbn [self].
  replace (v <? Protocol.CurrentVersion p) with true
    by (symmetry; apply Z.ltb_lt; assumption).
  rewrite (add_1_below v current) by assumption.
  rewrite bind_getToken. cbn [self calls]. rewrite Htk.
  rewrite bind_UpdateRecord. cbn [self calls].
  rewrite <- app_assoc. cbn [app].
  destruct (phe_UpdateRecord blob token) as [next [e|]]; reflexivity.
Qed.

Lemma is_int_succ v : is_int v -> v < current -> is_int (v + 1).
Proof. unfold is_int, int_min, int_max in *. lia. Qed.

(** The loop always comes to an end within the fuel
    [UpdateEnrollmentRecord] gives it, whatever the registry holds. *)
Lemma update_loop_returns fuel newRec v l :
  is_int v -> (Z.to_nat (current - v) < fuel)%nat ->
  exists x l', update_loop fuel rec newRec v (World _ p l) =
               (Returns x, World _ p l').
Proof.
  revert newRec v l. induction fuel as [|fuel IH]; intros newRec v l Hv Hfuel.
  - lia.
  - destruct (Z_lt_le_dec v current) as [Hlt|Hge].
    + destruct (lookupToken p (v + 1)) as [token|] eqn:Htk.
      * rewrite (update_loop_step _ _ _ _ token) by assumption.
        destruct (phe_UpdateRecord blob token) as [next [e|]]; [eauto|].
        apply IH; [apply is_int_succ; assumption | lia].
      * rewrite update_loop_missing by assumption. eauto.
    + rewrite update_loop_done by assumption. eauto.
Qed.

(** With every token of the chain present and every transformation of the
    record's blob succeeding, the loop ends with the last token applied to
    that blob. *)
Lemma update_loop_break fuel newRec v l :
  is_int v -> v <= current -> (Z.to_nat (current - v) < fuel)%nat ->
  (forall k, v < k <= current ->
     exists token, lookupToken p k = Some token /\
                   snd (phe_UpdateRecord blob token) = None) ->
  update_loop fuel rec newRec v (World _ p l) =
  (Returns (Break (if v =? current then newRec else final_blob p blob)),
   World _ p (l ++ loop_calls p blob (Z.to_nat (current - v)) v)).
Proof.
  revert newRec v l.
  induction fuel as [|fuel IH]; intros newRec v l Hv Hle Hfuel Hall; [lia|].
  destruct (Z.eq_dec v current) as [->|Hne].
  - rewrite update_loop_done by lia.
    rewrite Z.eqb_refl, Z.sub_diag. cbn. rewrite app_nil_r. reflexivity.
  - assert (Hlt : v < current) by lia.
    destruct (Hall (v + 1)) as (token & Htk & Hok); [lia|].
    rewrite (update_loop_step _ _ _ _ token) by assumption.
    destruct (phe_UpdateRecord blob token) as [next err] eqn:Hup.
    cbn in Hok. subst err.
    rewrite IH;
      [| apply is_int_succ; assumption | lia | lia
       | intros k Hk; apply Hall; lia ].
    replace (Z.to_nat (current - v)) with (S (Z.to_nat (current - (v + 1))))
      by lia.
    cbn [loop_calls]. rewrite Htk. rewrite <- app_assoc. cbn.
    replace (v =? current) with false by (symmetry; apply Z.eqb_neq; lia).
    destruct (Z.eqb_spec (v + 1) current) as [Heq|_]; [|reflexivity].
    unfold final_blob. rewrite <- Heq, Htk, Hup. reflexivity.
Qed.

End MigrationLoop.

(** ** Migration of a record *)

Section Migration.
Context {T : phe.types} {C : Collaborators}.
Variables (p : Protocol.t) (oldRecord : slice) (rec : EnrollmentRecord.t).

Local Abbreviation current := (Protocol.CurrentVersion p).
Local Abbreviation blob := (EnrollmentRecord.Enrollment rec).
Local Abbreviation steps :=
  (Z.to_nat (current - EnrollmentRecord.Version rec)).

Hypothesis decoded : json.Unmarshal oldRecord = (Some rec, None).
Hypothesis current_int : is_int current.
Hypothesis version_int : is_int (EnrollmentRecord.Version rec).

(** For a record below [CurrentVersion] the result is decided by the
    way the loop is left. *)
Lemma UpdateEnrollmentRecord_older :
  EnrollmentRecord.Version rec < current ->
  run (UpdateEnrollmentRecord oldRecord) p =
  match update_loop (S steps) rec None (EnrollmentRecord.Version rec)
          (World _ p []) with
  | (Returns (Return newRecord err), w) => (Returns (newRecord, err), w)
  | (Returns (Break newRec), w) =>
      (Returns
         (json_Marshal
            {| EnrollmentRecord.Version := Protocol.CurrentVersion (self w);
               EnrollmentRecord.Enrollment := newRec |}), w)
  | (Panics reason, w) => (Panics reason, w)
  | (Exhausted, w) => (Exhausted, w)
  end.
Proof.
  intros Hlt. unfold run, UpdateEnrollmentRecord. rewrite decoded.
  rewrite bind_field. cbn [self].
  replace (_ =? _) with false by (symmetry; apply Z.eqb_neq; lia).
  replace (_ >? _) with false by (symmetry; rewrite Z.gtb_ltb; apply Z.ltb_ge; lia).
  unfold bind at 1.
  destruct (update_loop _ _ _ _ _) as [[[newRec|newRecord err]|reason|] w];
    reflexivity.
Qed.

(** What the code does when the whole chain of tokens is at hand and each
    transformation of the record's blob succeeds: the tokens are looked up
    one epoch at a time in increasing order, each is applied to the blob of
    the record that was passed in, and the record that comes back wraps
    the result of the last application alone. *)
Lemma UpdateEnrollmentRecord_last_token_on_original :
  EnrollmentRecord.Version rec < current ->
  (forall k, EnrollmentRecord.Version rec < k <= current ->
     exists token, lookupToken p k = Some token /\
                   snd (phe_UpdateRecord blob token) = None) ->
  run (UpdateEnrollmentRecord oldRecord) p =
  (Returns (json_Marshal {| EnrollmentRecord.Version := current;
                            EnrollmentRecord.Enrollment := final_blob p blob |}),
   World _ p (loop_calls p blob steps (EnrollmentRecord.Version rec))).
Proof.
  intros Hlt Hall. rewrite UpdateEnrollmentRecord_older by assumption.
  rewrite (update_loop_break p rec) by (assumption || lia).
  replace (_ =? _) with false by (symmetry; apply Z.eqb_neq; lia).
  reflexivity.
Qed.

(** Whatever the registry of tokens holds, migrating a record below
    [CurrentVersion] returns. *)
Lemma UpdateEnrollmentRecord_older_returns :
  EnrollmentRecord.Version rec < current ->
  exists result calls,
    run (UpdateEnrollmentRecord oldRecord) p =
    (Returns result, World _ p calls).
Proof.
  intros Hlt. rewrite UpdateEnrollmentRecord_older by assumption.
  destruct (update_loop_returns p rec current_int (S steps) None
              (EnrollmentRecord.Version rec) [])
    as ([newRec|newRecord err] & l' & ->); [assumption | lia | |]; eauto.
Qed.

End Migration.

(** ** Verification *)

Section Verification.
Context {T : phe.types} {C : Collaborators}.

(** The run of [VerifyPassword] on a record at [CurrentVersion] whose
    client is in the registry and for which the challenge was built, by
    what the remote service answers. *)
Lemma VerifyPassword_after_request
    (p : Protocol.t) (password : string) (enrollmentRecord : slice)
    (rec : EnrollmentRecord.t) (c : phe.Client)
    (req : ptr phe.VerifyPasswordRequest) :
  json.Unmarshal enrollmentRecord = (Some rec, None) ->
  EnrollmentRecord.Version rec = Protocol.CurrentVersion p ->
  lookupClient p (EnrollmentRecord.Version rec) = Some c ->
  Client_CreateVerifyPasswordRequest c (bytes_of password)
    (EnrollmentRecord.Enrollment rec) = (req, None) ->
  let versionedReq :=
    {| VerifyPasswordRequest.Version := EnrollmentRecord.Version rec;
       VerifyPasswordRequest.Request := req |} in
  let asked :=
    [LookupClient (EnrollmentRecord.Version rec);
     CallCreateVerifyPasswordRequest c (bytes_of password)
       (EnrollmentRecord.Enrollment rec);
     CallVerifyPassword (client_of p) versionedReq] in
  run (VerifyPassword password enrollmentRecord) p =
  match APIClient_VerifyPassword (client_of p) versionedReq with
  | (Some resp, None) =>
      let decrypted :=
        asked ++
        [CallCheckResponseAndDecrypt c (bytes_of password)
           (EnrollmentRecord.Enrollment rec)
           (VerifyPasswordResponse.Response resp)] in
      match Client_CheckResponseAndDecrypt c (bytes_of password)
              (EnrollmentRecord.Enrollment rec)
              (VerifyPasswordResponse.Response resp) with
      | (_, Some e) =>
          (Returns (None, Some (Wrapped e "error after requesting service")),
           World _ (with_client p) decrypted)
      | (key, None) =>
          if len key =? 0
          then (Returns (None, Some ErrInvalidPassword),
                World _ (with_client p) decrypted)
          else (Returns (key, None), World _ (with_client p) decrypted)
      end
  | (_, err) =>
      (Returns (None, Wrap err "error while requesting service"),
       World _ (with_client p) asked)
  end.
Proof.
  intros Hdec Hver Hc Hreq. cbv zeta.
  unfold run, VerifyPassword. rewrite Hdec. advance.
  replace (_ =? _) with true by (symmetry; apply Z.eqb_eq; assumption).
  cbn [negb]. advance. rewrite Hc. advance. rewrite Hreq. advance. advance.
  destruct (APIClient_VerifyPassword _ _) as [[resp|] [err|]];
    try reflexivity.
  advance.
  destruct (Client_CheckResponseAndDecrypt _ _ _ _) as [key [e|]];
    [reflexivity|].
  destruct (len key =? 0); reflexivity.
Qed.

(** A key that [VerifyPassword] returns is never empty, and comes with
    no error. *)
Lemma VerifyPassword_key_nonempty
    (p : Protocol.t) (password : string) (enrollmentRecord : slice)
    (key : slice) (err : option error) (w : world) :
  run (VerifyPassword password enrollmentRecord) p = (Returns (key, err), w) ->
  key <> None -> 0 < len key /\ err = None.
Proof.
  unfold run, VerifyPassword.
  destruct (json.Unmarshal enrollmentRecord) as [[rec|] [e|]];
    try returned.
  advance. destruct (negb _); [returned|].
  advance. destruct (lookupClient _ _) as [c|]; [|returned].
  advance.
  destruct (Client_CreateVerifyPasswordRequest _ _ _) as [req [e|]];
    [returned|].
  advance. advance.
  destruct (APIClient_VerifyPassword _ _) as [[resp|] [e|]]; try returned.
  advance.
  destruct (Client_CheckResponseAndDecrypt _ _ _ _) as [k [e|]]; [returned|].
  destruct (Z.eqb_spec (len k) 0) as [Hz|Hnz]; [returned|].
  cbn. intros [= <- <- <-] Hkey. split; [|reflexivity].
  destruct k as [b|]; [|congruence]. unfold len in *. lia.
Qed.

(** [VerifyPassword] comes to an end on every input; the run ends in a
    panic exactly when the record text decodes to a nil envelope without
    an error. *)
Lemma VerifyPassword_outcome
    (p : Protocol.t) (password : string) (enrollmentRecord : slice) :
  match fst (run (VerifyPassword password enrollmentRecord) p) with
  | Returns _ => json.Unmarshal enrollmentRecord <> (None, None)
  | Panics reason =>
      reason = nil_dereference /\
      json.Unmarshal enrollmentRecord = (None, None)
  | Exhausted => False
  end.
Proof.
  unfold run, VerifyPassword.
  destruct (json.Unmarshal enrollmentRecord) as [[rec|] [e|]];
    try returned; [|cbn; split; reflexivity].
  advance. destruct (negb _); [returned|].
  advance. destruct (lookupClient _ _) as [c|]; [|returned].
  advance.
  destruct (Client_CreateVerifyPasswordRequest _ _ _) as [req [e|]];
    [returned|].
  advance. advance.
  destruct (APIClient_VerifyPassword _ _) as [[resp|] [e|]]; try returned.
  advance.
  destruct (Client_CheckResponseAndDecrypt _ _ _ _) as [k [e|]]; [returned|].
  destruct (len k =? 0); returned.
Qed.

End Verification.

Section VerificationClaims.
Context {T : phe.types} {C : Collaborators}.

(** C7. Once the record is at [CurrentVersion], its client is found,
    the challenge is built and the service has answered with a response:
    if decryption succeeds with a key of length zero, [VerifyPassword]
    fails with [ErrInvalidPassword] and returns no key; if decryption
    itself fails, the error is the decryption error wrapped, which is
    never [ErrInvalidPassword]; otherwise the key is returned.  On any
    run at all, a key that is returned is non-empty and comes with no
    error. *)
Theorem VerifyPassword_empty_key_is_invalid_password
    (p : Protocol.t) (password : string) (enrollmentRecord : slice)
    (rec : EnrollmentRecord.t) (c : phe.Client)
    (req : ptr phe.VerifyPasswordRequest) (resp : VerifyPasswordResponse.t)
    (key : slice) (err : option error) :
  json.Unmarshal enrollmentRecord = (Some rec, None) ->
  EnrollmentRecord.Version rec = Protocol.CurrentVersion p ->
  lookupClient p (EnrollmentRecord.Version rec) = Some c ->
  Client_CreateVerifyPasswordRequest c (bytes_of password)
    (EnrollmentRecord.Enrollment rec) = (req, None) ->
  APIClient_VerifyPassword (client_of p)
    {| VerifyPasswordRequest.Version := EnrollmentRecord.Version rec;
       VerifyPasswordRequest.Request := req |} = (Some resp, None) ->
  Client_CheckResponseAndDecrypt c (bytes_of password)
    (EnrollmentRecord.Enrollment rec)
    (VerifyPasswordResponse.Response resp) = (key, err) ->
  let result := fst (run (VerifyPassword password enrollmentRecord) p) in
  (err = None -> len key = 0 ->
   result = Returns (None, Some ErrInvalidPassword)) /\
  (forall e, err = Some e ->
     result = Returns (None, Some (Wrapped e "error after requesting service"))
     /\ Wrapped e "error after requesting service" <> ErrInvalidPassword) /\
  (err = None -> len key <> 0 -> result = Returns (key, None)) /\
  (forall p' password' record' key' err' w,
     run (VerifyPassword password' record') p' = (Returns (key', err'), w) ->
     key' <> None -> 0 < len key' /\ err' = None).
Proof.
  intros Hdec Hver Hc Hreq Hresp Hkey result. subst result.
  rewrite (VerifyPassword_after_request p password enrollmentRecord rec c req)
    by assumption.
  rewrite Hresp, Hkey. repeat split.
  - intros -> Hlen. apply Z.eqb_eq in Hlen. rewrite Hlen. reflexivity.
  - subst err. reflexivity.
  - discriminate.
  - intros -> Hlen. apply Z.eqb_neq in Hlen. rewrite Hlen. reflexivity.
  - eapply VerifyPassword_key_nonempty; eassumption.
  - eapply VerifyPassword_key_nonempty; eassumption.
Qed.

(** When the service answers with neither a response nor an error,
    [errors.Wrap] is handed a nil error and [VerifyPassword] returns
    neither a key nor an error. *)
Lemma VerifyPassword_nil_response
    (p : Protocol.t) (password : string) (enrollmentRecord : slice)
    (rec : EnrollmentRecord.t) (c : phe.Client)
    (req : ptr phe.VerifyPasswordRequest) :
  json.Unmarshal enrollmentRecord = (Some rec, None) ->
  EnrollmentRecord.Version rec = Protocol.CurrentVersion p ->
  lookupClient p (EnrollmentRecord.Version rec) = Some c ->
  Client_CreateVerifyPasswordRequest c (bytes_of password)
    (EnrollmentRecord.Enrollment rec) = (req, None) ->
  APIClient_VerifyPassword (client_of p)
    {| VerifyPasswordRequest.Version := EnrollmentRecord.Version rec;
       VerifyPasswordRequest.Request := req |} = (None, None) ->
  fst (run (VerifyPassword password enrollmentRecord) p)
  = Returns (None, None).
Proof.
  intros Hdec Hver Hc Hreq Hresp.
  rewrite (VerifyPassword_after_request p password enrollmentRecord rec c req)
    by assumption.
  rewrite Hresp. reflexivity.
Qed.

(** C3. The JSON text [null] is decoded to a nil envelope without an
    error, and reading the version through it stops both operations with
    a nil-pointer panic: neither a result nor an error comes back. *)
Theorem null_record_panics (p : Protocol.t) (password : string) :
  let null := Some (list_byte_of_string "null") in
  json.Unmarshal null = (None, None) /\
  run (VerifyPassword password null) p
  = (Panics nil_dereference, World _ p []) /\
  run (UpdateEnrollmentRecord null) p
  = (Panics nil_dereference, World _ p []).
Proof. cbv zeta. repeat split. Qed.

(** Apart from that, [UpdateEnrollmentRecord] comes to an end on every
    input. *)
Lemma UpdateEnrollmentRecord_outcome (p : Protocol.t) (oldRecord : slice) :
  is_int (Protocol.CurrentVersion p) ->
  (forall rec, json.Unmarshal oldRecord = (Some rec, None) ->
               is_int (EnrollmentRecord.Version rec)) ->
  match fst (run (UpdateEnrollmentRecord oldRecord) p) with
  | Returns _ => json.Unmarshal oldRecord <> (None, None)
  | Panics reason =>
      reason = nil_dereference /\ json.Unmarshal oldRecord = (None, None)
  | Exhausted => False
  end.
Proof.
  intros Hcur Hrec.
  destruct (json.Unmarshal oldRecord) as [[rec|] [e|]] eqn:Hdec.
  - unfold run, UpdateEnrollmentRecord. rewrite Hdec. cbn. congruence.
  - specialize (Hrec rec eq_refl).
    destruct (Z.lt_trichotomy (EnrollmentRecord.Version rec)
                (Protocol.CurrentVersion p)) as [Hlt|[Heq|Hgt]].
    + destruct (UpdateEnrollmentRecord_older_returns p oldRecord rec
                  Hdec Hcur Hrec Hlt) as (result & l & ->).
      cbn. congruence.
    + unfold run, UpdateEnrollmentRecord. rewrite Hdec, bind_field.
      cbn [self]. rewrite Heq, Z.eqb_refl. cbn. congruence.
    + unfold run, UpdateEnrollmentRecord. rewrite Hdec, bind_field.
      cbn [self].
      replace (_ =? _) with false by (symmetry; apply Z.eqb_neq; lia).
      replace (_ >? _) with true by (symmetry; apply Z.gtb_lt; lia).
      cbn. congruence.
  - unfold run, UpdateEnrollmentRecord. rewrite Hdec. cbn. congruence.
  - unfold run, UpdateEnrollmentRecord. rewrite Hdec. cbn.
    split; reflexivity.
Qed.

End VerificationClaims.

(** ** Enrollment *)

Section Enrollment.
Context {T : phe.types} {C : Collaborators}.

(** The run of [EnrollAccount] when the service answers with a seed: the
    client is looked up under the epoch the answer carries, and the
    envelope is tagged with [CurrentVersion]. *)
Lemma EnrollAccount_after_seed
    (p : Protocol.t) (password : string) (resp : EnrollmentResponse.t) :
  let req := {| EnrollmentRequest.Version := Protocol.CurrentVersion p |} in
  APIClient_GetEnrollment (client_of p) req = (Some resp, None) ->
  let asked :=
    [CallGetEnrollment (client_of p) req;
     LookupClient (EnrollmentResponse.Version resp)] in
  run (EnrollAccount password) p =
  match lookupClient p (EnrollmentResponse.Version resp) with
  | None =>
      (Returns (None, None,
                Some (EnrollEpochUnavailable (EnrollmentResponse.Version resp))),
       World _ (with_client p) asked)
  | Some c =>
      let enrolled :=
        asked ++ [CallEnrollAccount c (bytes_of password)
                    (EnrollmentResponse.Enrollment resp)] in
      match Client_EnrollAccount c (bytes_of password)
              (EnrollmentResponse.Enrollment resp) with
      | (_, _, Some e) =>
          (Returns (None, None, Some (Wrapped e "could not enroll account")),
           World _ (with_client p) enrolled)
      | (blob, key, None) =>
          match json_Marshal
                  {| EnrollmentRecord.Version := Protocol.CurrentVersion p;
                     EnrollmentRecord.Enrollment := blob |} with
          | (_, Some e) =>
              (Returns (None, None,
                        Some (Wrapped e "could not serialize enrollment record")),
               World _ (with_client p) enrolled)
          | (enrollmentRecord, None) =>
              (Returns (enrollmentRecord, key, None),
               World _ (with_client p) enrolled)
          end
      end
  end.
Proof.
  intros req Hresp asked. subst req asked.
  unfold run, EnrollAccount. rewrite bind_field. cbn [self].
  rewrite bind_getClient. cbn [self calls].
  unfold GetEnrollment at 1. unfold bind at 1. unfold bind at 1.
  unfold record_call at 1. cbn [self calls app]. unfold ret at 1.
  rewrite Hresp. rewrite bind_getPHE. cbn [self calls app].
  unfold lookupClient. rewrite with_client_PHEClients.
  destruct (index (Protocol.PHEClients p) _) as [[c|] ok]; cbn [fst];
    [|reflexivity].
  unfold PheEnrollAccount at 1. unfold bind at 1. unfold bind at 1.
  unfold record_call at 1. cbn [self calls app]. unfold ret at 1.
  destruct (Client_EnrollAccount _ _ _) as [[blob key] [e|]]; [reflexivity|].
  rewrite bind_field. cbn [self]. rewrite with_client_CurrentVersion.
  destruct (json_Marshal _) as [enrollmentRecord [e|]]; reflexivity.
Qed.

End Enrollment.

(** ** Construction *)

Section Construction.
Context {T : phe.types}.

Lemma registry_nil_empty : registry_empty None.
Proof. intros version. reflexivity. Qed.

(** C4 (amended). [NewProtocol] fails with [InvalidConfiguration] when
    the context is nil, when the app identity is the empty string, and
    when the registry of clients is nil.  It succeeds for every context
    with a non-empty app identity and a registry that is not nil, which
    every non-empty registry is, and then hands the context's registries,
    identity and version over to the protocol. *)
Theorem NewProtocol_rejects_missing_configuration (context : ptr Context.t) :
  match context with
  | None => NewProtocol context = (None, Some InvalidConfiguration)
  | Some ctx =>
      (Context.AppId ctx = EmptyString \/ Context.PHEClients ctx = None ->
       NewProtocol context = (None, Some InvalidConfiguration)) /\
      (Context.AppId ctx <> EmptyString ->
       Context.PHEClients ctx <> None ->
       NewProtocol context =
       (Some {| Protocol.AppID := Context.AppId ctx;
                Protocol.PHEClients := Context.PHEClients ctx;
                Protocol.UpdateTokens := Context.UpdateTokens ctx;
                Protocol.APIClient := None;
                Protocol.CurrentVersion := Context.Version ctx;
                Protocol.once := false |}, None)) /\
      (~ registry_empty (Context.PHEClients ctx) ->
       Context.PHEClients ctx <> None)
  end.
Proof.
  destruct context as [ctx|]; [|reflexivity].
  unfold NewProtocol. repeat split.
  - intros [Happ|Hnil].
    + rewrite Happ. reflexivity.
    + rewrite Hnil, orb_true_r. reflexivity.
  - intros Happ Hreg. apply String.eqb_neq in Happ. rewrite Happ.
    destruct (Context.PHEClients ctx); [reflexivity|congruence].
  - intros Hne Hnil. apply Hne. rewrite Hnil. apply registry_nil_empty.
Qed.

End Construction.

(** ** The operations on concrete inputs *)

Import Double.

Section Scenarios.

Local Abbreviation record1 := (text (envelope 1 (Some "r"))).
Local Abbreviation decoded1 := (@EnrollmentRecord.mk types 1 (Some "r")).

(** C1. Current version 3, tokens for the epochs 2 and 3, a record at
    epoch 1 with the blob [r].  The loop looks the two tokens up in
    increasing order and applies each of them to [r]; the record that
    comes back is at epoch 3 and wraps token 3 applied to [r], where the
    chained composition is token 3 applied to the result of token 2. *)
Theorem UpdateEnrollmentRecord_does_not_chain :
  let C := collaborators (honest 3 None) in
  let p := protocol 3 None (Some {[ 2 := Some 2; 3 := Some 3 ]}) in
  run (UpdateEnrollmentRecord (C := C) record1) p =
  (Returns (text (envelope 3 (Some "r+t3")), None),
   World _ p [LookupToken 2; CallUpdateRecord (Some "r") 2;
              LookupToken 3; CallUpdateRecord (Some "r") 3]) /\
  final_blob (C := C) p (Some "r") = Some "r+t3" /\
  spec_migrate (C := C) p decoded1 = Some (Some "r+t2+t3") /\
  text (envelope 3 (Some "r+t3")) <> text (envelope 3 (Some "r+t2+t3")).
Proof. cbv zeta. repeat split. vm_compute. discriminate. Qed.

(** C2. A record at the current version, its client in the registry,
    and a service that answers the verification request with a nil
    response and a nil error: [VerifyPassword] returns a nil key and a nil
    error. *)
Theorem VerifyPassword_returns_neither_key_nor_error :
  let C := collaborators
             {| server_epoch := 1;
                verify_reply := (None, None);
                decrypt_reply := (None, None) |} in
  let p := protocol 1 (Some {[ 1 := Some 1 ]}) None in
  fst (run (VerifyPassword (C := C) "pw" record1) p) = Returns (None, None).
Proof. reflexivity. Qed.

(** C5. Current version 1, clients for the epochs 1 and 2, and a service
    that answers the request for epoch 1 with a seed of epoch 2: the
    seed is requested for epoch 1, the client is looked up for epoch 2,
    and the envelope tagged with version 1 wraps the blob computed by the
    client of epoch 2.  With the client of epoch 1 taken out of the
    registry, enrollment succeeds all the same. *)
Theorem EnrollAccount_resolves_client_of_response_epoch :
  let C := collaborators (honest 2 None) in
  let p := protocol 1 (Some {[ 1 := Some 1; 2 := Some 2 ]}) None in
  let p' := protocol 1 (Some {[ 2 := Some 2 ]}) None in
  let client := Some {| APIClient.AppID := "app" |} in
  run (EnrollAccount (C := C) "pw") p =
  (Returns (text (envelope 1 (Some "c2:seed")), bytes_of "pw", None),
   World _ (with_client p)
     [CallGetEnrollment client {| EnrollmentRequest.Version := 1 |};
      LookupClient 2;
      CallEnrollAccount 2 (bytes_of "pw") (Some "seed")]) /\
  lookupClient p' (Protocol.CurrentVersion p') = None /\
  fst (run (EnrollAccount (C := C) "pw") p') =
  Returns (text (envelope 1 (Some "c2:seed")), bytes_of "pw", None).
Proof. cbv zeta. repeat split. Qed.

(** Against C4 as first stated: an empty registry of clients that is not
    nil passes the check of [NewProtocol]. *)
Lemma NewProtocol_accepts_empty_registry :
  let ctx := {| Context.AppId := "app";
                Context.PHEClients := Some ∅;
                Context.UpdateTokens := None;
                Context.Version := 1 |} in
  registry_empty (Context.PHEClients ctx) /\
  NewProtocol (Some ctx) = (Some (protocol 1 (Some ∅) None), None) /\
  NewProtocol (Some ctx) <> (None, Some InvalidConfiguration).
Proof.
  cbv zeta. split; [|split; [reflexivity|discriminate]].
  intros version. unfold index. cbn. rewrite lookup_empty. reflexivity.
Qed.

(** Against C9 as first stated: current version 3, a record at epoch 1,
    a token for epoch 2 that the transformation rejects and no token for
    epoch 3.  The error that comes back is the one of the transformation,
    not [MissingUpdateToken]. *)
Lemma UpdateEnrollmentRecord_transformation_fails_first :
  let C := collaborators (honest 3 None) in
  let p := protocol 3 None (Some {[ 2 := Some 0 ]}) in
  json.Unmarshal (C := C) record1 = (Some decoded1, None) /\
  EnrollmentRecord.Version decoded1 < Protocol.CurrentVersion p /\
  lookupToken p 3 = None /\
  run (UpdateEnrollmentRecord (C := C) record1) p =
  (Returns (None, Some (Foreign "phe: invalid update token")),
   World _ p [LookupToken 2; CallUpdateRecord (Some "r") 0]) /\
  Foreign "phe: invalid update token" <> MissingUpdateToken.
Proof. cbv zeta. repeat split. discriminate. Qed.

End Scenarios.

(** ** The theorems at concrete inputs *)

Section Witnesses.

Local Abbreviation record1 := (text (envelope 1 (Some "r"))).
Local Abbreviation decoded1 := (@EnrollmentRecord.mk types 1 (Some "r")).
Local Abbreviation plain := (collaborators (honest 1 None)).

Lemma VerifyPassword_version_mismatch_witness :
  let p := protocol 2 (Some {[ 1 := Some 1; 2 := Some 2 ]}) None in
  json.Unmarshal (C := plain) record1 = (Some decoded1, None) /\
  EnrollmentRecord.Version decoded1 <> Protocol.CurrentVersion p /\
  run (VerifyPassword (C := plain) "pw" record1) p =
  (Returns (None, Some VersionMismatch), World _ p []).
Proof.
  cbv zeta. split; [reflexivity|]. split; [cbn; lia|].
  apply (VerifyPassword_version_mismatch (T := types) (C := plain)
           _ "pw" record1 decoded1);
    [reflexivity | cbn; lia].
Defined.

Lemma UpdateEnrollmentRecord_current_unchanged_witness :
  let p := protocol 1 None None in
  json.Unmarshal (C := plain) record1 = (Some decoded1, None) /\
  EnrollmentRecord.Version decoded1 = Protocol.CurrentVersion p /\
  run (UpdateEnrollmentRecord (C := plain) record1) p =
  (Returns (record1, None), World _ p []).
Proof.
  cbv zeta. split; [reflexivity|]. split; [reflexivity|].
  apply (UpdateEnrollmentRecord_current_unchanged (T := types) (C := plain) _ record1
           decoded1); reflexivity.
Defined.

Lemma UpdateEnrollmentRecord_future_version_witness :
  let p := protocol 0 None None in
  json.Unmarshal (C := plain) record1 = (Some decoded1, None) /\
  EnrollmentRecord.Version decoded1 > Protocol.CurrentVersion p /\
  run (UpdateEnrollmentRecord (C := plain) record1) p =
  (Returns (None, Some InvalidVersion), World _ p []).
Proof.
  cbv zeta. split; [reflexivity|]. split; [cbn; lia|].
  apply (UpdateEnrollmentRecord_future_version (T := types) (C := plain) _ record1
           decoded1); [reflexivity | cbn; lia].
Defined.

Lemma VerifyPassword_empty_key_is_invalid_password_witness :
  let p := protocol 1 (Some {[ 1 := Some 1 ]}) None in
  lookupClient p 1 = Some 1 /\
  @Client_CheckResponseAndDecrypt types plain 1 (bytes_of "pw")
    (Some "r") (Some "response") = (None, None) /\
  fst (run (VerifyPassword (C := plain) "pw" record1) p)
  = Returns (None, Some ErrInvalidPassword).
Proof.
  cbv zeta. split; [reflexivity|]. split; [reflexivity|].
  refine (proj1 (VerifyPassword_empty_key_is_invalid_password (T := types)
                   (C := plain)
                   _ "pw" record1 decoded1 1 (Some "challenge")
                   {| VerifyPasswordResponse.Response := Some "response" |}
                   None None _ _ _ _ _ _) _ _); reflexivity.
Defined.

Lemma NewProtocol_rejects_missing_configuration_witness :
  let unnamed := @Context.mk types EmptyString (Some {[ 1 := Some 1 ]}) None 1 in
  let complete := @Context.mk types "app" (Some {[ 1 := Some 1 ]}) None 1 in
  NewProtocol (Some unnamed) = (None, Some InvalidConfiguration) /\
  NewProtocol (Some complete) =
  (Some (protocol 1 (Some {[ 1 := Some 1 ]}) None), None).
Proof.
  intros unnamed complete. split.
  - apply (proj1 (NewProtocol_rejects_missing_configuration (Some unnamed))).
    left. reflexivity.
  - apply (proj1 (proj2 (NewProtocol_rejects_missing_configuration
                           (Some complete)))); cbn; discriminate.
Defined.

End Witnesses.

(** * Further properties of the operations *)

(** ** The loop, whatever the registry holds *)

Section LoopShape.
Context {T : phe.types} {C : Collaborators}.

(** The loop never touches the receiver; a [return] inside it carries no
    record and an error; it never panics. *)
Lemma update_loop_frame fuel rec newRec v w :
  self (snd (update_loop fuel rec newRec v w)) = self w /\
  match fst (update_loop fuel rec newRec v w) with
  | Returns (Return newRecord err) => newRecord = None /\ err <> None
  | Returns (Break _) => True
  | Panics _ => False
  | Exhausted => True
  end.
Proof.
  revert newRec v w. induction fuel as [|fuel IH]; intros newRec v w.
  - cbn. split; exact I || reflexivity.
  - rewrite update_loop_unfold. advance.
    destruct (v <? Protocol.CurrentVersion (self w)); [|cbn; auto].
    advance. destruct (lookupToken (self w) (add v 1)) as [token|];
      [|cbn; split; [reflexivity | split; [reflexivity | discriminate]]].
    advance.
    destruct (phe_UpdateRecord _ token) as [next [e|]];
      [cbn; split; [reflexivity | split; [reflexivity | discriminate]]|].
    destruct (IH next (add v 1)
                (World _ (self w)
                   ((calls w ++ [LookupToken (add v 1)])
                    ++ [CallUpdateRecord (EnrollmentRecord.Enrollment rec)
                          token]))) as [Hself Hshape].
    split; assumption.
Qed.

End LoopShape.

Section LoopPrefix.
Context {T : phe.types} {C : Collaborators}.
Variables (p : Protocol.t) (rec : EnrollmentRecord.t).

Local Abbreviation current := (Protocol.CurrentVersion p).
Local Abbreviation blob := (EnrollmentRecord.Enrollment rec).

Hypothesis current_int : is_int current.

(** The first [n] rounds of the loop, when their tokens are present and
    their transformations succeed. *)
Lemma update_loop_prefix (n : nat) fuel newRec v l :
  is_int v -> v + Z.of_nat n <= current ->
  (forall j, v < j <= v + Z.of_nat n ->
     exists token, lookupToken p j = Some token /\
                   snd (phe_UpdateRecord blob token) = None) ->
  exists newRec',
    update_loop (n + fuel) rec newRec v (World _ p l) =
    update_loop fuel rec newRec' (v + Z.of_nat n)
      (World _ p (l ++ loop_calls p blob n v)).
Proof.
  revert newRec v l. induction n as [|n IH]; intros newRec v l Hv Hle Hall.
  - exists newRec. cbn [loop_calls Nat.add Z.of_nat].
    rewrite Z.add_0_r, app_nil_r. reflexivity.
  - destruct (Hall (v + 1)) as (token & Htk & Hok); [lia|].
    cbn [Nat.add].
    rewrite (update_loop_step p rec current_int _ _ _ _ token)
      by (assumption || lia).
    destruct (phe_UpdateRecord blob token) as [next err] eqn:Hup.
    cbn in Hok. subst err.
    destruct (IH next (v + 1)
                (l ++ [LookupToken (v + 1); CallUpdateRecord blob token]))
      as (newRec' & Hrun).
    + apply (is_int_succ p current_int); [assumption | lia].
    + lia.
    + intros j Hj. apply Hall. lia.
    + exists newRec'. rewrite Hrun.
      replace (v + 1 + Z.of_nat n) with (v + Z.of_nat (S n)) by lia.
      cbn [loop_calls]. rewrite Htk, <- app_assoc. reflexivity.
Qed.

End LoopPrefix.

(** ** Migration, step by step *)

Section MigrationSteps.
Context {T : phe.types} {C : Collaborators}.

(** A record that is not below [CurrentVersion] never reaches the loop. *)
Lemma UpdateEnrollmentRecord_not_older
    (p : Protocol.t) (oldRecord : slice) (rec : EnrollmentRecord.t) :
  json.Unmarshal oldRecord = (Some rec, None) ->
  Protocol.CurrentVersion p <= EnrollmentRecord.Version rec ->
  run (UpdateEnrollmentRecord oldRecord) p =
  (Returns (if EnrollmentRecord.Version rec =? Protocol.CurrentVersion p
            then (oldRecord, None) else (None, Some InvalidVersion)),
   World _ p []).
Proof.
  intros Hdec Hle. unfold run, UpdateEnrollmentRecord. rewrite Hdec. advance.
  destruct (Z.eqb_spec (EnrollmentRecord.Version rec)
              (Protocol.CurrentVersion p)) as [Heq|Hne]; [reflexivity|].
  replace (_ >? _) with true by (symmetry; apply Z.gtb_lt; lia).
  reflexivity.
Qed.

(** Every transformation the loop asks for is one of the blob it was
    given. *)
Lemma loop_calls_original (p : Protocol.t) blob n v b token :
  In (CallUpdateRecord b token) (loop_calls p blob n v) -> b = blob.
Proof.
  revert v. induction n as [|n IH]; intros v; cbn [loop_calls]; [intros []|].
  intros [Hhd|Htl]; [discriminate|].
  destruct (lookupToken p (v + 1)) as [t|]; [|destruct Htl].
  destruct Htl as [[= <- _]|Htl]; [reflexivity | eauto].
Qed.

(** X1. [UpdateEnrollmentRecord] never changes the receiver: registries,
    current version, app identity and client handle are after the call
    what they were before, however the call ends. *)
Theorem UpdateEnrollmentRecord_keeps_receiver
    (p : Protocol.t) (oldRecord : slice) :
  self (snd (run (UpdateEnrollmentRecord oldRecord) p)) = p.
Proof.
  unfold run, UpdateEnrollmentRecord.
  destruct (json.Unmarshal oldRecord) as [[rec|] [e|]]; try reflexivity.
  advance.
  destruct (_ =? _); [reflexivity|]. destruct (_ >? _); [reflexivity|].
  unfold bind at 1.
  pose proof (update_loop_frame
                (S (Z.to_nat (Protocol.CurrentVersion p
                              - EnrollmentRecord.Version rec)))
                rec None (EnrollmentRecord.Version rec) (World _ p []))
    as [Hself _].
  destruct (update_loop _ _ _ _ _) as [[[newRec|newRecord err]|reason|] w];
    cbn in *; assumption.
Qed.

(** X2. With a token for every epoch from the record's up to
    [CurrentVersion] and every transformation of the record's blob
    succeeding, [UpdateEnrollmentRecord] looks the tokens up one epoch at
    a time in increasing order, hands the blob of the record it was given
    to every transformation, and returns the envelope at
    [CurrentVersion] around the result of the transformation with the
    token of [CurrentVersion]. *)
Theorem UpdateEnrollmentRecord_complete_chain
    (p : Protocol.t) (oldRecord : slice) (rec : EnrollmentRecord.t) :
  json.Unmarshal oldRecord = (Some rec, None) ->
  is_int (Protocol.CurrentVersion p) ->
  is_int (EnrollmentRecord.Version rec) ->
  EnrollmentRecord.Version rec < Protocol.CurrentVersion p ->
  (forall k, EnrollmentRecord.Version rec < k <= Protocol.CurrentVersion p ->
     exists token,
       lookupToken p k = Some token /\
       snd (phe_UpdateRecord (EnrollmentRecord.Enrollment rec) token) = None) ->
  exists calls,
    run (UpdateEnrollmentRecord oldRecord) p =
    (Returns
       (json_Marshal
          {| EnrollmentRecord.Version := Protocol.CurrentVersion p;
             EnrollmentRecord.Enrollment :=
               final_blob p (EnrollmentRecord.Enrollment rec) |}),
     World _ p calls) /\
    calls = loop_calls p (EnrollmentRecord.Enrollment rec)
              (Z.to_nat (Protocol.CurrentVersion p
                         - EnrollmentRecord.Version rec))
              (EnrollmentRecord.Version rec) /\
    (forall b token, In (CallUpdateRecord b token) calls ->
                     b = EnrollmentRecord.Enrollment rec).
Proof.
  intros Hdec Hcur Hver Hlt Hall. eexists. split; [|split; [reflexivity|]].
  - apply UpdateEnrollmentRecord_last_token_on_original; assumption.
  - intros b token. apply loop_calls_original.
Qed.

(** X3. A record exactly one epoch behind is migrated as specified: one
    lookup, one transformation, and the envelope at [CurrentVersion]
    around the transformed blob, which is the chained composition of the
    specification. *)
Theorem UpdateEnrollmentRecord_one_epoch_behind
    (p : Protocol.t) (oldRecord : slice) (rec : EnrollmentRecord.t)
    (token : phe.UpdateToken) (next : ptr phe.EnrollmentRecord) :
  json.Unmarshal oldRecord = (Some rec, None) ->
  is_int (Protocol.CurrentVersion p) ->
  is_int (EnrollmentRecord.Version rec) ->
  EnrollmentRecord.Version rec + 1 = Protocol.CurrentVersion p ->
  lookupToken p (Protocol.CurrentVersion p) = Some token ->
  phe_UpdateRecord (EnrollmentRecord.Enrollment rec) token = (next, None) ->
  run (UpdateEnrollmentRecord oldRecord) p =
  (Returns
     (json_Marshal {| EnrollmentRecord.Version := Protocol.CurrentVersion p;
                      EnrollmentRecord.Enrollment := next |}),
   World _ p [LookupToken (Protocol.CurrentVersion p);
              CallUpdateRecord (EnrollmentRecord.Enrollment rec) token]) /\
  spec_migrate p rec = Some next.
Proof.
  intros Hdec Hcur Hver Hone Htk Hup. split.
  - rewrite (UpdateEnrollmentRecord_last_token_on_original p oldRecord rec)
      by (try assumption; try lia;
          intros k Hk; replace k with (Protocol.CurrentVersion p) by lia;
          exists token; rewrite Hup; auto).
    unfold final_blob. rewrite Htk, Hup.
    replace (Z.to_nat _) with 1%nat by lia.
    cbn [loop_calls]. rewrite Hone, Htk. reflexivity.
  - unfold spec_migrate. replace (Z.to_nat _) with 1%nat by lia.
    cbn [chained_blob]. rewrite Hone, Htk, Hup. reflexivity.
Qed.

(** X4. When the tokens of the epochs before [k] are present and their
    transformations succeed, and the token of epoch [k] is the first one
    missing, [UpdateEnrollmentRecord] fails with [MissingUpdateToken]
    right after the lookup for [k]; no record is returned. *)
Theorem UpdateEnrollmentRecord_first_missing_token
    (p : Protocol.t) (oldRecord : slice) (rec : EnrollmentRecord.t) (k : Z) :
  json.Unmarshal oldRecord = (Some rec, None) ->
  is_int (Protocol.CurrentVersion p) ->
  is_int (EnrollmentRecord.Version rec) ->
  EnrollmentRecord.Version rec < k <= Protocol.CurrentVersion p ->
  (forall j, EnrollmentRecord.Version rec < j < k ->
     exists token,
       lookupToken p j = Some token /\
       snd (phe_UpdateRecord (EnrollmentRecord.Enrollment rec) token) = None) ->
  lookupToken p k = None ->
  run (UpdateEnrollmentRecord oldRecord) p =
  (Returns (None, Some MissingUpdateToken),
   World _ p
     (loop_calls p (EnrollmentRecord.Enrollment rec)
        (Z.to_nat (k - EnrollmentRecord.Version rec - 1))
        (EnrollmentRecord.Version rec)
      ++ [LookupToken k])).
Proof.
  intros Hdec Hcur Hver Hk Hpre Hnone.
  rewrite (UpdateEnrollmentRecord_older p oldRecord rec) by (assumption || lia).
  set (n := Z.to_nat (k - EnrollmentRecord.Version rec - 1)).
  replace (S (Z.to_nat (Protocol.CurrentVersion p
                        - EnrollmentRecord.Version rec)))
    with (n + S (S (Z.to_nat (Protocol.CurrentVersion p - k))))%nat
    by (subst n; lia).
  destruct (update_loop_prefix p rec Hcur n
              (S (S (Z.to_nat (Protocol.CurrentVersion p - k)))) None
              (EnrollmentRecord.Version rec) [])
    as (newRec' & ->);
    [assumption | subst n; lia | intros j Hj; apply Hpre; subst n; lia |].
  replace (EnrollmentRecord.Version rec + Z.of_nat n) with (k - 1)
    by (subst n; lia).
  cbn [app].
  rewrite update_loop_missing;
    [ | assumption | unfold is_int, int_min, int_max in *; lia | lia
      | replace (k - 1 + 1) with k by lia; assumption ].
  replace (k - 1 + 1) with k by lia. reflexivity.
Qed.

(** X5. When the tokens of the epochs before [k] are present and their
    transformations succeed, and the transformation with the token of
    epoch [k] fails, [UpdateEnrollmentRecord] returns that error as it is
    and no record; no later token is looked up. *)
Theorem UpdateEnrollmentRecord_transformation_error
    (p : Protocol.t) (oldRecord : slice) (rec : EnrollmentRecord.t) (k : Z)
    (token : phe.UpdateToken) (partial : ptr phe.EnrollmentRecord)
    (e : error) :
  json.Unmarshal oldRecord = (Some rec, None) ->
  is_int (Protocol.CurrentVersion p) ->
  is_int (EnrollmentRecord.Version rec) ->
  EnrollmentRecord.Version rec < k <= Protocol.CurrentVersion p ->
  (forall j, EnrollmentRecord.Version rec < j < k ->
     exists token,
       lookupToken p j = Some token /\
       snd (phe_UpdateRecord (EnrollmentRecord.Enrollment rec) token) = None) ->
  lookupToken p k = Some token ->
  phe_UpdateRecord (EnrollmentRecord.Enrollment rec) token
  = (partial, Some e) ->
  run (UpdateEnrollmentRecord oldRecord) p =
  (Returns (None, Some e),
   World _ p
     (loop_calls p (EnrollmentRecord.Enrollment rec)
        (Z.to_nat (k - EnrollmentRecord.Version rec - 1))
        (EnrollmentRecord.Version rec)
      ++ [LookupToken k;
          CallUpdateRecord (EnrollmentRecord.Enrollment rec) token])).
Proof.
  intros Hdec Hcur Hver Hk Hpre Htk Hfail.
  rewrite (UpdateEnrollmentRecord_older p oldRecord rec) by (assumption || lia).
  set (n := Z.to_nat (k - EnrollmentRecord.Version rec - 1)).
  replace (S (Z.to_nat (Protocol.CurrentVersion p
                        - EnrollmentRecord.Version rec)))
    with (n + S (S (Z.to_nat (Protocol.CurrentVersion p - k))))%nat
    by (subst n; lia).
  destruct (update_loop_prefix p rec Hcur n
              (S (S (Z.to_nat (Protocol.CurrentVersion p - k)))) None
              (EnrollmentRecord.Version rec) [])
    as (newRec' & ->);
    [assumption | subst n; lia | intros j Hj; apply Hpre; subst n; lia |].
  replace (EnrollmentRecord.Version rec + Z.of_nat n) with (k - 1)
    by (subst n; lia).
  cbn [app].
  rewrite (update_loop_step p rec Hcur _ _ _ _ token);
    [ | unfold is_int, int_min, int_max in *; lia | lia
      | replace (k - 1 + 1) with k by lia; assumption ].
  rewrite Hfail. replace (k - 1 + 1) with k by lia. reflexivity.
Qed.

End MigrationSteps.

(** ** Migration: outcomes and composition *)

Section MigrationOutcomes.
Context {T : phe.types} {C : Collaborators}.

(** What a successful migration has gone through. *)
Lemma UpdateEnrollmentRecord_success_inv
    (p : Protocol.t) (oldRecord newRecord : slice) (w : world) :
  run (UpdateEnrollmentRecord oldRecord) p = (Returns (newRecord, None), w) ->
  exists rec,
    json.Unmarshal oldRecord = (Some rec, None) /\
    ((EnrollmentRecord.Version rec = Protocol.CurrentVersion p /\
      newRecord = oldRecord) \/
     (EnrollmentRecord.Version rec < Protocol.CurrentVersion p /\
      exists newRec,
        json_Marshal {| EnrollmentRecord.Version := Protocol.CurrentVersion p;
                        EnrollmentRecord.Enrollment := newRec |}
        = (newRecord, None))).
Proof.
  destruct (json.Unmarshal oldRecord) as [[rec|] [e|]] eqn:Hdec;
    try (unfold run, UpdateEnrollmentRecord; rewrite Hdec; cbn; discriminate).
  intros Hrun. exists rec. split; [reflexivity|].
  destruct (Z_lt_le_dec (EnrollmentRecord.Version rec)
              (Protocol.CurrentVersion p)) as [Hlt|Hge].
  - right. split; [assumption|].
    rewrite (UpdateEnrollmentRecord_older p oldRecord rec) in Hrun
      by assumption.
    pose proof (update_loop_frame
                  (S (Z.to_nat (Protocol.CurrentVersion p
                                - EnrollmentRecord.Version rec)))
                  rec None (EnrollmentRecord.Version rec) (World _ p []))
      as [Hself Hshape].
    destruct (update_loop _ _ _ _ _) as [[[newRec|r err]|reason|] w'];
      cbn in Hself, Hshape; try discriminate.
    + exists newRec. subst p. congruence.
    + destruct Hshape as [_ Herr]. congruence.
  - left.
    rewrite (UpdateEnrollmentRecord_not_older p oldRecord rec) in Hrun
      by assumption.
    destruct (Z.eqb_spec (EnrollmentRecord.Version rec)
                (Protocol.CurrentVersion p)); [|discriminate].
    split; congruence.
Qed.

(** X6. Migrating twice is migrating once: when [UpdateEnrollmentRecord]
    succeeds and the text it returns decodes to an envelope that carries
    the version it was written with, a second call on that text returns it
    unchanged, without any lookup or transformation. *)
Theorem UpdateEnrollmentRecord_idempotent
    (p : Protocol.t) (oldRecord newRecord : slice) (w : world) :
  run (UpdateEnrollmentRecord oldRecord) p = (Returns (newRecord, None), w) ->
  (forall newRec,
     json_Marshal {| EnrollmentRecord.Version := Protocol.CurrentVersion p;
                     EnrollmentRecord.Enrollment := newRec |}
     = (newRecord, None) ->
     exists rec',
       json.Unmarshal newRecord = (Some rec', None) /\
       EnrollmentRecord.Version rec' = Protocol.CurrentVersion p) ->
  run (UpdateEnrollmentRecord newRecord) p =
  (Returns (newRecord, None), World _ p []).
Proof.
  intros Hrun Hcodec.
  destruct (UpdateEnrollmentRecord_success_inv p oldRecord newRecord w Hrun)
    as (rec & Hdec & [[Hcur ->]|[Hlt [newRec Hnew]]]).
  - rewrite (UpdateEnrollmentRecord_not_older p oldRecord rec)
      by (assumption || lia).
    rewrite Hcur, Z.eqb_refl. reflexivity.
  - destruct (Hcodec newRec Hnew) as (rec' & Hdec' & Hcur').
    rewrite (UpdateEnrollmentRecord_not_older p newRecord rec')
      by (assumption || lia).
    rewrite Hcur', Z.eqb_refl. reflexivity.
Qed.

(** X7. On versions that are Go integers [UpdateEnrollmentRecord] always
    comes to an end.  It returns for every input but one kind: a text
    that decodes to a nil envelope without an error stops it with a
    nil-pointer panic. *)
Theorem UpdateEnrollmentRecord_returns_unless_nil_envelope
    (p : Protocol.t) (oldRecord : slice) :
  is_int (Protocol.CurrentVersion p) ->
  (forall rec, json.Unmarshal oldRecord = (Some rec, None) ->
               is_int (EnrollmentRecord.Version rec)) ->
  match fst (run (UpdateEnrollmentRecord oldRecord) p) with
  | Returns _ => json.Unmarshal oldRecord <> (None, None)
  | Panics reason =>
      reason = nil_dereference /\ json.Unmarshal oldRecord = (None, None)
  | Exhausted => False
  end.
Proof. apply UpdateEnrollmentRecord_outcome. Qed.

(** X8. With an encoder that, as [json.Marshal] does, gives no bytes
    when it fails, [UpdateEnrollmentRecord] never returns a record
    together with an error. *)
Theorem UpdateEnrollmentRecord_error_without_record
    (p : Protocol.t) (oldRecord newRecord : slice) (e : error) (w : world) :
  (forall rec bytes err,
     json_Marshal rec = (bytes, Some err) -> bytes = None) ->
  run (UpdateEnrollmentRecord oldRecord) p
  = (Returns (newRecord, Some e), w) ->
  newRecord = None.
Proof.
  intros Hmarshal.
  destruct (json.Unmarshal oldRecord) as [[rec|] [e'|]] eqn:Hdec;
    try (unfold run, UpdateEnrollmentRecord; rewrite Hdec;
         unfold ret, panic; congruence).
  destruct (Z_lt_le_dec (EnrollmentRecord.Version rec)
              (Protocol.CurrentVersion p)) as [Hlt|Hge].
  - rewrite (UpdateEnrollmentRecord_older p oldRecord rec) by assumption.
    pose proof (update_loop_frame
                  (S (Z.to_nat (Protocol.CurrentVersion p
                                - EnrollmentRecord.Version rec)))
                  rec None (EnrollmentRecord.Version rec) (World _ p []))
      as [_ Hshape].
    destruct (update_loop _ _ _ _ _) as [[[newRec|r err]|reason|] w'];
      cbn in Hshape; try discriminate.
    + destruct (json_Marshal _) as [bytes err] eqn:Hm.
      intros [= -> -> _]. eapply Hmarshal, Hm.
    + destruct Hshape as [-> _]. congruence.
  - rewrite (UpdateEnrollmentRecord_not_older p oldRecord rec) by assumption.
    destruct (_ =? _); congruence.
Qed.

End MigrationOutcomes.

(** ** Verification: the ways it fails *)

Section VerificationFailures.
Context {T : phe.types} {C : Collaborators}.

(** X9. A record text the decoder rejects is turned down first: both
    [VerifyPassword] and [UpdateEnrollmentRecord] return the decoder's
    error as it is, with no key or record, before any lookup, computation
    or remote call. *)
Theorem malformed_record_is_rejected_first
    (p : Protocol.t) (password : string) (data : slice)
    (r : ptr EnrollmentRecord.t) (e : error) :
  json.Unmarshal data = (r, Some e) ->
  run (VerifyPassword password data) p
  = (Returns (None, Some e), World _ p []) /\
  run (UpdateEnrollmentRecord data) p
  = (Returns (None, Some e), World _ p []).
Proof.
  intros Hdec. unfold run, VerifyPassword, UpdateEnrollmentRecord.
  rewrite Hdec. split; reflexivity.
Qed.

(** X10. A record at [CurrentVersion] whose epoch has no client, the
    registry being nil, lacking the key or binding it to a nil client,
    fails with the error for missing keys after the lookup alone: no
    challenge is built and no remote call is made. *)
Theorem VerifyPassword_missing_client
    (p : Protocol.t) (password : string) (enrollmentRecord : slice)
    (rec : EnrollmentRecord.t) :
  json.Unmarshal enrollmentRecord = (Some rec, None) ->
  EnrollmentRecord.Version rec = Protocol.CurrentVersion p ->
  lookupClient p (EnrollmentRecord.Version rec) = None ->
  run (VerifyPassword password enrollmentRecord) p =
  (Returns (None, Some EpochUnavailable),
   World _ p [LookupClient (EnrollmentRecord.Version rec)]).
Proof.
  intros Hdec Hver Hnone. unfold run, VerifyPassword. rewrite Hdec. advance.
  replace (_ =? _) with true by (symmetry; apply Z.eqb_eq; assumption).
  cbn [negb]. advance. rewrite Hnone. reflexivity.
Qed.

(** X11. When the client fails to build the challenge, [VerifyPassword]
    returns that error wrapped and no key; the remote service is not
    called and the client handle is not even built. *)
Theorem VerifyPassword_challenge_error
    (p : Protocol.t) (password : string) (enrollmentRecord : slice)
    (rec : EnrollmentRecord.t) (c : phe.Client)
    (req : ptr phe.VerifyPasswordRequest) (e : error) :
  json.Unmarshal enrollmentRecord = (Some rec, None) ->
  EnrollmentRecord.Version rec = Protocol.CurrentVersion p ->
  lookupClient p (EnrollmentRecord.Version rec) = Some c ->
  Client_CreateVerifyPasswordRequest c (bytes_of password)
    (EnrollmentRecord.Enrollment rec) = (req, Some e) ->
  run (VerifyPassword password enrollmentRecord) p =
  (Returns (None,
            Some (Wrapped e "could not create verify password request")),
   World _ p
     [LookupClient (EnrollmentRecord.Version rec);
      CallCreateVerifyPasswordRequest c (bytes_of password)
        (EnrollmentRecord.Enrollment rec)]).
Proof.
  intros Hdec Hver Hc Hreq. unfold run, VerifyPassword. rewrite Hdec. advance.
  replace (_ =? _) with true by (symmetry; apply Z.eqb_eq; assumption).
  cbn [negb]. advance. rewrite Hc. advance. rewrite Hreq. reflexivity.
Qed.

(** X12. When the remote call reports an error, with or without a
    response beside it, [VerifyPassword] returns that error wrapped and
    no key: the response is not looked at and nothing is decrypted. *)
Theorem VerifyPassword_request_error
    (p : Protocol.t) (password : string) (enrollmentRecord : slice)
    (rec : EnrollmentRecord.t) (c : phe.Client)
    (req : ptr phe.VerifyPasswordRequest)
    (resp : ptr VerifyPasswordResponse.t) (e : error) :
  json.Unmarshal enrollmentRecord = (Some rec, None) ->
  EnrollmentRecord.Version rec = Protocol.CurrentVersion p ->
  lookupClient p (EnrollmentRecord.Version rec) = Some c ->
  Client_CreateVerifyPasswordRequest c (bytes_of password)
    (EnrollmentRecord.Enrollment rec) = (req, None) ->
  APIClient_VerifyPassword (client_of p)
    {| VerifyPasswordRequest.Version := EnrollmentRecord.Version rec;
       VerifyPasswordRequest.Request := req |} = (resp, Some e) ->
  run (VerifyPassword password enrollmentRecord) p =
  (Returns (None, Some (Wrapped e "error while requesting service")),
   World _ (with_client p)
     [LookupClient (EnrollmentRecord.Version rec);
      CallCreateVerifyPasswordRequest c (bytes_of password)
        (EnrollmentRecord.Enrollment rec);
      CallVerifyPassword (client_of p)
        {| VerifyPasswordRequest.Version := EnrollmentRecord.Version rec;
           VerifyPasswordRequest.Request := req |}]).
Proof.
  intros Hdec Hver Hc Hreq Hresp.
  rewrite (VerifyPassword_after_request p password enrollmentRecord rec c req)
    by assumption.
  rewrite Hresp. destruct resp; reflexivity.
Qed.

(** X13. [VerifyPassword] always comes to an end.  It returns for every
    input but one kind, a text that decodes to a nil envelope without an
    error, which stops it with a nil-pointer panic; and whenever it
    returns an error it returns no key. *)
Theorem VerifyPassword_ends
    (p : Protocol.t) (password : string) (enrollmentRecord : slice) :
  match fst (run (VerifyPassword password enrollmentRecord) p) with
  | Returns (key, err) =>
      json.Unmarshal enrollmentRecord <> (None, None) /\
      (err <> None -> key = None)
  | Panics reason =>
      reason = nil_dereference /\
      json.Unmarshal enrollmentRecord = (None, None)
  | Exhausted => False
  end.
Proof.
  unfold run, VerifyPassword.
  destruct (json.Unmarshal enrollmentRecord) as [[rec|] [e|]];
    try (cbn; split; [congruence | reflexivity]).
  advance. destruct (negb _); [cbn; split; [congruence | reflexivity]|].
  advance. destruct (lookupClient _ _) as [c|];
    [|cbn; split; [congruence | reflexivity]].
  advance.
  destruct (Client_CreateVerifyPasswordRequest _ _ _) as [req [e|]];
    [cbn; split; [congruence | reflexivity]|].
  advance. advance.
  destruct (APIClient_VerifyPassword _ _) as [[resp|] [e|]];
    try (cbn; split; [congruence | reflexivity]).
  advance.
  destruct (Client_CheckResponseAndDecrypt _ _ _ _) as [k [e|]];
    [cbn; split; [congruence | reflexivity]|].
  destruct (len k =? 0); cbn; split; congruence.
Qed.

End VerificationFailures.

(** ** Enrollment: outcomes *)

Section EnrollmentOutcomes.
Context {T : phe.types} {C : Collaborators}.

Lemma bind_GetEnrollment {B} client req
    (k : ptr EnrollmentResponse.t * option error -> M B) w :
  bind (GetEnrollment client req) k w =
  k (APIClient_GetEnrollment client req)
    (World _ (self w) (calls w ++ [CallGetEnrollment client req])).
Proof. reflexivity. Qed.

Lemma bind_PheEnrollAccount {B} c password seed
    (k : ptr phe.EnrollmentRecord * slice * option error -> M B) w :
  bind (PheEnrollAccount c password seed) k w =
  k (Client_EnrollAccount c password seed)
    (World _ (self w) (calls w ++ [CallEnrollAccount c password seed])).
Proof. reflexivity. Qed.

(** The run of [EnrollAccount] up to the answer of the service. *)
Lemma EnrollAccount_after_request (p : Protocol.t) (password : string) :
  let req := {| EnrollmentRequest.Version := Protocol.CurrentVersion p |} in
  run (EnrollAccount password) p =
  match APIClient_GetEnrollment (client_of p) req with
  | (_, Some e) =>
      (Returns (None, None, Some e),
       World _ (with_client p) [CallGetEnrollment (client_of p) req])
  | (None, None) =>
      (Panics nil_dereference,
       World _ (with_client p) [CallGetEnrollment (client_of p) req])
  | (Some resp, None) => run (EnrollAccount password) p
  end.
Proof.
  cbv zeta.
  destruct (APIClient_GetEnrollment _ _) as [[resp|] [e|]] eqn:Hreply;
    try reflexivity;
    unfold run, EnrollAccount; advance; advance;
    rewrite bind_GetEnrollment; cbn [self calls app];
    rewrite Hreply; reflexivity.
Qed.

(** X14. When the request for the enrollment seed fails, [EnrollAccount]
    returns the error of the call as it is, with no record and no key,
    and goes no further: no client is looked up and nothing is
    computed. *)
Theorem EnrollAccount_request_error
    (p : Protocol.t) (password : string)
    (resp : ptr EnrollmentResponse.t) (e : error) :
  APIClient_GetEnrollment (client_of p)
    {| EnrollmentRequest.Version := Protocol.CurrentVersion p |}
  = (resp, Some e) ->
  run (EnrollAccount password) p =
  (Returns (None, None, Some e),
   World _ (with_client p)
     [CallGetEnrollment (client_of p)
        {| EnrollmentRequest.Version := Protocol.CurrentVersion p |}]).
Proof.
  intros Hreply. rewrite EnrollAccount_after_request. cbv zeta.
  rewrite Hreply. destruct resp; reflexivity.
Qed.

(** X15. When the service answers the request for a seed with a nil
    response and a nil error, [EnrollAccount] reads the version through
    the nil response and stops with a nil-pointer panic: unlike
    [VerifyPassword], it has no guard for this answer. *)
Theorem EnrollAccount_nil_response_panics
    (p : Protocol.t) (password : string) :
  APIClient_GetEnrollment (client_of p)
    {| EnrollmentRequest.Version := Protocol.CurrentVersion p |}
  = (None, None) ->
  run (EnrollAccount password) p =
  (Panics nil_dereference,
   World _ (with_client p)
     [CallGetEnrollment (client_of p)
        {| EnrollmentRequest.Version := Protocol.CurrentVersion p |}]).
Proof.
  intros Hreply. rewrite EnrollAccount_after_request. cbv zeta.
  rewrite Hreply. reflexivity.
Qed.

(** X16. Every run of [EnrollAccount] starts with the request for a
    seed for [CurrentVersion], made through the client handle, and
    leaves the receiver with that handle built.  The run always comes to
    an end; it panics only on a nil response without an error; and
    whenever it returns an error it returns neither a record nor a
    key. *)
Theorem EnrollAccount_ends (p : Protocol.t) (password : string) :
  let req := {| EnrollmentRequest.Version := Protocol.CurrentVersion p |} in
  let r := run (EnrollAccount password) p in
  self (snd r) = with_client p /\
  (exists rest,
     calls (snd r) = CallGetEnrollment (client_of p) req :: rest) /\
  match fst r with
  | Returns (enrollmentRecord, key, err) =>
      err <> None -> enrollmentRecord = None /\ key = None
  | Panics reason =>
      reason = nil_dereference /\
      APIClient_GetEnrollment (client_of p) req = (None, None)
  | Exhausted => False
  end.
Proof.
  cbv zeta.
  destruct (APIClient_GetEnrollment (client_of p)
              {| EnrollmentRequest.Version := Protocol.CurrentVersion p |})
    as [[resp|] [e|]] eqn:Hreply.
  1,3,4: rewrite EnrollAccount_after_request; cbv zeta; rewrite Hreply;
         cbn; repeat split; eauto.
  rewrite (EnrollAccount_after_seed p password resp Hreply).
  destruct (lookupClient p _) as [c|];
    [|cbn; repeat split; eauto].
  cbv zeta.
  destruct (Client_EnrollAccount _ _ _) as [[blob key] [e|]];
    [cbn; repeat split; eauto|].
  destruct (json_Marshal _) as [enrollmentRecord [e|]];
    cbn; repeat split; eauto; congruence.
Qed.

(** X17. When the service answers with a seed for the epoch it was asked
    for, [EnrollAccount] works with the client of [CurrentVersion]: it
    fails with the error for missing keys when that client is absent, and
    otherwise returns the key that client computed and the encoded
    envelope tagged with [CurrentVersion] around the blob it computed. *)
Theorem EnrollAccount_with_echoing_service
    (p : Protocol.t) (password : string) (resp : EnrollmentResponse.t) :
  APIClient_GetEnrollment (client_of p)
    {| EnrollmentRequest.Version := Protocol.CurrentVersion p |}
  = (Some resp, None) ->
  EnrollmentResponse.Version resp = Protocol.CurrentVersion p ->
  match lookupClient p (Protocol.CurrentVersion p) with
  | None =>
      fst (run (EnrollAccount password) p) =
      Returns (None, None,
               Some (EnrollEpochUnavailable (Protocol.CurrentVersion p)))
  | Some c =>
      forall blob key enrollmentRecord,
        Client_EnrollAccount c (bytes_of password)
          (EnrollmentResponse.Enrollment resp) = (blob, key, None) ->
        json_Marshal
          {| EnrollmentRecord.Version := Protocol.CurrentVersion p;
             EnrollmentRecord.Enrollment := blob |}
        = (enrollmentRecord, None) ->
        fst (run (EnrollAccount password) p) =
        Returns (enrollmentRecord, key, None)
  end.
Proof.
  intros Hreply Hecho.
  rewrite (EnrollAccount_after_seed p password resp Hreply).
  rewrite Hecho. destruct (lookupClient p _) as [c|]; [|reflexivity].
  intros blob key enrollmentRecord Henroll Hmarshal. cbv zeta.
  rewrite Henroll, Hmarshal. reflexivity.
Qed.

(** What a successful enrollment has gone through. *)
Lemma EnrollAccount_success_inv
    (p : Protocol.t) (password : string)
    (enrollmentRecord key : slice) (w : world) :
  run (EnrollAccount password) p
  = (Returns (enrollmentRecord, key, None), w) ->
  self w = with_client p /\
  exists blob,
    json_Marshal {| EnrollmentRecord.Version := Protocol.CurrentVersion p;
                    EnrollmentRecord.Enrollment := blob |}
    = (enrollmentRecord, None).
Proof.
  destruct (APIClient_GetEnrollment (client_of p)
              {| EnrollmentRequest.Version := Protocol.CurrentVersion p |})
    as [[resp|] [e|]] eqn:Hreply.
  1,3,4: rewrite EnrollAccount_after_request; cbv zeta; rewrite Hreply;
         discriminate.
  rewrite (EnrollAccount_after_seed p password resp Hreply).
  destruct (lookupClient p _) as [c|]; [|discriminate].
  cbv zeta.
  destruct (Client_EnrollAccount _ _ _) as [[blob k] [e|]]; [discriminate|].
  destruct (json_Marshal _) as [bytes [e|]] eqn:Hm; [discriminate|].
  intros [= <- <- <-]. split; [reflexivity|]. exists blob. assumption.
Qed.

(** X18. A record that [EnrollAccount] has just returned is at
    [CurrentVersion]: provided its text decodes to an envelope carrying
    the version it was written with, [UpdateEnrollmentRecord] hands it
    back unchanged, without any lookup or transformation. *)
Theorem EnrollAccount_then_UpdateEnrollmentRecord
    (p : Protocol.t) (password : string)
    (enrollmentRecord key : slice) (w : world) :
  run (EnrollAccount password) p
  = (Returns (enrollmentRecord, key, None), w) ->
  (forall blob,
     json_Marshal {| EnrollmentRecord.Version := Protocol.CurrentVersion p;
                     EnrollmentRecord.Enrollment := blob |}
     = (enrollmentRecord, None) ->
     exists rec,
       json.Unmarshal enrollmentRecord = (Some rec, None) /\
       EnrollmentRecord.Version rec = Protocol.CurrentVersion p) ->
  run (UpdateEnrollmentRecord enrollmentRecord) (self w) =
  (Returns (enrollmentRecord, None), World _ (self w) []).
Proof.
  intros Hrun Hcodec.
  destruct (EnrollAccount_success_inv p password enrollmentRecord key w Hrun)
    as (Hself & blob & Hmarshal).
  destruct (Hcodec blob Hmarshal) as (rec & Hdec & Hver).
  rewrite (UpdateEnrollmentRecord_not_older (self w) enrollmentRecord rec);
    rewrite ?Hself, ?with_client_CurrentVersion; try assumption; try lia.
  rewrite Hver, Z.eqb_refl. reflexivity.
Qed.

End EnrollmentOutcomes.

(** ** The receiver across calls *)

Section Receiver.
Context {T : phe.types} {C : Collaborators}.

Lemma with_client_same_configuration (p : Protocol.t) :
  same_configuration p (with_client p).
Proof.
  unfold same_configuration, with_client.
  destruct (Protocol.once p); repeat split.
Qed.

Lemma with_client_keeps_client (p : Protocol.t) (c : APIClient.t) :
  Protocol.APIClient p = Some c ->
  Protocol.APIClient (with_client p) = Some c.
Proof.
  intros Hc. unfold with_client.
  destruct (Protocol.once p); cbn; rewrite Hc; reflexivity.
Qed.

Lemma with_client_idempotent (p : Protocol.t) :
  with_client (with_client p) = with_client p.
Proof.
  unfold with_client. destruct (Protocol.once p) eqn:Honce;
    cbn; rewrite ?Honce; reflexivity.
Qed.

Lemma EnrollAccount_receiver (p : Protocol.t) (password : string) :
  self (snd (run (EnrollAccount password) p)) = with_client p.
Proof.
  destruct (APIClient_GetEnrollment (client_of p)
              {| EnrollmentRequest.Version := Protocol.CurrentVersion p |})
    as [[resp|] [e|]] eqn:Hreply.
  1,3,4: rewrite EnrollAccount_after_request; cbv zeta; rewrite Hreply;
         reflexivity.
  rewrite (EnrollAccount_after_seed p password resp Hreply).
  destruct (lookupClient p _) as [c|]; [|reflexivity]. cbv zeta.
  destruct (Client_EnrollAccount _ _ _) as [[blob key] [e|]]; [reflexivity|].
  destruct (json_Marshal _) as [enrollmentRecord [e|]]; reflexivity.
Qed.

Lemma EnrollAccount_first_call (p : Protocol.t) (password : string) :
  exists rest,
    calls (snd (run (EnrollAccount password) p)) =
    CallGetEnrollment (client_of p)
      {| EnrollmentRequest.Version := Protocol.CurrentVersion p |} :: rest.
Proof.
  destruct (APIClient_GetEnrollment (client_of p)
              {| EnrollmentRequest.Version := Protocol.CurrentVersion p |})
    as [[resp|] [e|]] eqn:Hreply.
  1,3,4: rewrite EnrollAccount_after_request; cbv zeta; rewrite Hreply;
         cbn; eauto.
  rewrite (EnrollAccount_after_seed p password resp Hreply).
  destruct (lookupClient p _) as [c|]; [|cbn; eauto]. cbv zeta.
  destruct (Client_EnrollAccount _ _ _) as [[blob key] [e|]]; [cbn; eauto|].
  destruct (json_Marshal _) as [enrollmentRecord [e|]]; cbn; eauto.
Qed.

Lemma VerifyPassword_receiver
    (p : Protocol.t) (password : string) (enrollmentRecord : slice) :
  self (snd (run (VerifyPassword password enrollmentRecord) p)) = p \/
  self (snd (run (VerifyPassword password enrollmentRecord) p))
  = with_client p.
Proof.
  unfold run, VerifyPassword.
  destruct (json.Unmarshal enrollmentRecord) as [[rec|] [e|]];
    try (left; reflexivity).
  advance. destruct (negb _); [left; reflexivity|].
  advance. destruct (lookupClient _ _) as [c|]; [|left; reflexivity].
  advance.
  destruct (Client_CreateVerifyPasswordRequest _ _ _) as [req [e|]];
    [left; reflexivity|].
  advance. advance.
  destruct (APIClient_VerifyPassword _ _) as [[resp|] [e|]];
    try (right; reflexivity).
  advance.
  destruct (Client_CheckResponseAndDecrypt _ _ _ _) as [k [e|]];
    [right; reflexivity|].
  destruct (len k =? 0); right; reflexivity.
Qed.

(** X19. Neither [EnrollAccount] nor [VerifyPassword] changes the
    configuration of the receiver: the app identity, the two registries
    and the current version are after the call what they were before,
    and a client handle that was already set is still the same one. *)
Theorem calls_keep_configuration
    (p : Protocol.t) (password : string) (enrollmentRecord : slice) :
  let enrolled := self (snd (run (EnrollAccount password) p)) in
  let verified :=
    self (snd (run (VerifyPassword password enrollmentRecord) p)) in
  same_configuration p enrolled /\
  same_configuration p verified /\
  (forall c, Protocol.APIClient p = Some c ->
             Protocol.APIClient enrolled = Some c /\
             Protocol.APIClient verified = Some c).
Proof.
  cbv zeta. rewrite EnrollAccount_receiver.
  destruct (VerifyPassword_receiver p password enrollmentRecord) as [->| ->];
    repeat split;
    try apply with_client_same_configuration;
    try apply with_client_keeps_client; assumption.
Qed.

(** X20. The client handle is built once: a second [getClient] returns
    the client the first one returned and leaves the receiver as the
    first one left it.  On a receiver whose [once] flag is not set the
    client returned is not nil. *)
Theorem getClient_builds_once (w : world) :
  (let* first := getClient in
   let* second := getClient in
   ret (first, second)) w =
  (Returns (client_of (self w), client_of (self w)),
   World _ (with_client (self w)) (calls w)) /\
  (Protocol.once (self w) = true \/ client_of (self w) <> None).
Proof.
  split.
  - advance. advance. unfold client_of.
    rewrite with_client_idempotent. reflexivity.
  - unfold client_of, with_client.
    destruct (Protocol.once (self w)); [left; reflexivity|right].
    cbn. destruct (Protocol.APIClient (self w)); discriminate.
Qed.

(** X21. [getCurrentPHE] finds the client [getPHE] finds for
    [CurrentVersion], nil when the registry is nil, lacks the key or
    binds it to nil; both leave the receiver alone. *)
Theorem getCurrentPHE_agrees_with_getPHE (w : world) :
  fst (getCurrentPHE w)
  = fst (getPHE (Protocol.CurrentVersion (self w)) w) /\
  fst (getCurrentPHE w)
  = Returns (lookupClient (self w) (Protocol.CurrentVersion (self w))) /\
  self (snd (getCurrentPHE w)) = self w /\
  self (snd (getPHE (Protocol.CurrentVersion (self w)) w)) = self w.
Proof.
  rewrite getPHE_run. unfold getCurrentPHE. do 2 rewrite bind_field.
  repeat split.
Qed.

End Receiver.

(** ** Construction, and the first call after it *)

Section Constructed.
Context {T : phe.types} {C : Collaborators}.

Lemma NewProtocol_success_inv (ctx : Context.t) (p : Protocol.t) :
  NewProtocol (Some ctx) = (Some p, None) ->
  Context.AppId ctx <> EmptyString /\
  Context.PHEClients ctx <> None /\
  p = {| Protocol.AppID := Context.AppId ctx;
         Protocol.PHEClients := Context.PHEClients ctx;
         Protocol.UpdateTokens := Context.UpdateTokens ctx;
         Protocol.APIClient := None;
         Protocol.CurrentVersion := Context.Version ctx;
         Protocol.once := false |}.
Proof.
  unfold NewProtocol.
  destruct (String.eqb_spec (Context.AppId ctx) EmptyString) as [Heq|Hne];
    [discriminate|].
  destruct (Context.PHEClients ctx) as [g|]; [|discriminate].
  cbn. intros [= <-]. repeat split; [assumption | discriminate].
Qed.

(** X22. [NewProtocol] returns either a protocol and no error, or no
    protocol and the invalid-context error.  A protocol it returns has a
    non-empty app identity and a registry of clients that is not nil, and
    its client handle is not yet built. *)
Theorem NewProtocol_all_or_nothing (context : ptr Context.t) :
  match NewProtocol context with
  | (Some p, None) =>
      Protocol.AppID p <> EmptyString /\
      Protocol.PHEClients p <> None /\
      Protocol.APIClient p = None /\
      Protocol.once p = false
  | (None, Some e) => e = InvalidConfiguration
  | _ => False
  end.
Proof.
  destruct context as [ctx|]; [|reflexivity].
  destruct (NewProtocol (Some ctx)) as [[p|] [e|]] eqn:Hnew.
  - unfold NewProtocol in Hnew.
    destruct (_ || _); discriminate.
  - destruct (NewProtocol_success_inv ctx p Hnew) as (Happ & Hreg & ->).
    repeat split; assumption.
  - unfold NewProtocol in Hnew.
    destruct (_ || _); congruence.
  - unfold NewProtocol in Hnew.
    destruct (_ || _); discriminate.
Qed.

(** X23. On a protocol that [NewProtocol] has built from a context, the
    first thing [EnrollAccount] does is to ask the service for a seed
    for the context's version, through a client handle that carries the
    context's app identity. *)
Theorem NewProtocol_then_EnrollAccount
    (ctx : Context.t) (p : Protocol.t) (password : string) :
  NewProtocol (Some ctx) = (Some p, None) ->
  exists rest,
    calls (snd (run (EnrollAccount password) p)) =
    CallGetEnrollment (Some {| APIClient.AppID := Context.AppId ctx |})
      {| EnrollmentRequest.Version := Context.Version ctx |} :: rest.
Proof.
  intros Hnew.
  destruct (NewProtocol_success_inv ctx p Hnew) as (_ & _ & ->).
  apply (EnrollAccount_first_call
           {| Protocol.AppID := Context.AppId ctx;
              Protocol.PHEClients := Context.PHEClients ctx;
              Protocol.UpdateTokens := Context.UpdateTokens ctx;
              Protocol.APIClient := None;
              Protocol.CurrentVersion := Context.Version ctx;
              Protocol.once := false |} password).
Qed.

End Constructed.

(** ** The further properties at concrete inputs *)

Section FurtherWitnesses.

Local Abbreviation record1 := (text (envelope 1 (Some "r"))).
Local Abbreviation decoded1 := (@EnrollmentRecord.mk types 1 (Some "r")).
Local Abbreviation plain := (collaborators (honest 1 None)).
Local Abbreviation timeout := (Foreign "net/http: request timed out").

Lemma small_is_int z : -1 < z < 4 -> is_int z.
Proof. unfold is_int, int_min, int_max. lia. Qed.

Lemma UpdateEnrollmentRecord_complete_chain_witness :
  let p := protocol 3 None (Some {[ 2 := Some 2; 3 := Some 3 ]}) in
  exists calls,
    run (UpdateEnrollmentRecord (C := plain) record1) p =
    (Returns (text (envelope 3 (Some "r+t3")), None), World _ p calls) /\
    calls = [LookupToken 2; CallUpdateRecord (Some "r") 2;
             LookupToken 3; CallUpdateRecord (Some "r") 3] /\
    (forall b token, In (CallUpdateRecord b token) calls -> b = Some "r").
Proof.
  intros p.
  apply (UpdateEnrollmentRecord_complete_chain (T := types) (C := plain)
           p record1 decoded1);
    [ reflexivity | apply small_is_int; cbn; lia
    | apply small_is_int; cbn; lia | cbn; lia | ].
  intros k Hk. cbn in Hk.
  assert (Hcases : k = 2 \/ k = 3) by lia.
  destruct Hcases as [-> | ->]; eexists; split; reflexivity.
Defined.

Lemma UpdateEnrollmentRecord_one_epoch_behind_witness :
  let p := protocol 2 None (Some {[ 2 := Some 2 ]}) in
  run (UpdateEnrollmentRecord (C := plain) record1) p =
  (Returns (text (envelope 2 (Some "r+t2")), None),
   World _ p [LookupToken 2; CallUpdateRecord (Some "r") 2]) /\
  spec_migrate (C := plain) p decoded1 = Some (Some "r+t2").
Proof.
  intros p.
  apply (UpdateEnrollmentRecord_one_epoch_behind (T := types) (C := plain)
           p record1 decoded1 2 (Some "r+t2"));
    [ reflexivity | apply small_is_int; cbn; lia
    | apply small_is_int; cbn; lia | reflexivity | reflexivity
    | reflexivity ].
Defined.

Lemma UpdateEnrollmentRecord_first_missing_token_witness :
  let p := protocol 3 None (Some {[ 2 := Some 2 ]}) in
  lookupToken p 3 = None /\
  run (UpdateEnrollmentRecord (C := plain) record1) p =
  (Returns (None, Some MissingUpdateToken),
   World _ p [LookupToken 2; CallUpdateRecord (Some "r") 2; LookupToken 3]).
Proof.
  intros p. split; [reflexivity|].
  apply (UpdateEnrollmentRecord_first_missing_token (T := types) (C := plain)
           p record1 decoded1 3);
    [ reflexivity | apply small_is_int; cbn; lia
    | apply small_is_int; cbn; lia | cbn; lia | | reflexivity ].
  intros j Hj. cbn in Hj. assert (Hj2 : j = 2) by lia. subst j.
  eexists. split; reflexivity.
Defined.

Lemma UpdateEnrollmentRecord_transformation_error_witness :
  let p := protocol 3 None (Some {[ 2 := Some 2; 3 := Some 0 ]}) in
  run (UpdateEnrollmentRecord (C := plain) record1) p =
  (Returns (None, Some (Foreign "phe: invalid update token")),
   World _ p [LookupToken 2; CallUpdateRecord (Some "r") 2;
              LookupToken 3; CallUpdateRecord (Some "r") 0]).
Proof.
  intros p.
  apply (UpdateEnrollmentRecord_transformation_error (T := types)
           (C := plain) p record1 decoded1 3 0 None
           (Foreign "phe: invalid update token"));
    [ reflexivity | apply small_is_int; cbn; lia
    | apply small_is_int; cbn; lia | cbn; lia | | reflexivity
    | reflexivity ].
  intros j Hj. cbn in Hj. assert (Hj2 : j = 2) by lia. subst j.
  eexists. split; reflexivity.
Defined.

Lemma UpdateEnrollmentRecord_idempotent_witness :
  let p := protocol 3 None (Some {[ 2 := Some 2; 3 := Some 3 ]}) in
  let migrated := text (envelope 3 (Some "r+t3")) in
  fst (run (UpdateEnrollmentRecord (C := plain) record1) p)
  = Returns (migrated, None) /\
  run (UpdateEnrollmentRecord (C := plain) migrated) p =
  (Returns (migrated, None), World _ p []).
Proof.
  intros p migrated. split; [reflexivity|].
  apply (UpdateEnrollmentRecord_idempotent (T := types) (C := plain)
           p record1 migrated
           (snd (run (UpdateEnrollmentRecord (C := plain) record1) p)));
    [reflexivity|].
  intros newRec _. eexists. split; reflexivity.
Defined.

Lemma UpdateEnrollmentRecord_returns_unless_nil_envelope_witness :
  let p := protocol 3 None None in
  json.Unmarshal (C := plain) record1 <> (None, None).
Proof.
  intros p.
  apply (UpdateEnrollmentRecord_returns_unless_nil_envelope (T := types)
           (C := plain) p record1);
    [apply small_is_int; cbn; lia|].
  intros rec [= <-]. apply small_is_int. cbn. lia.
Defined.

Lemma UpdateEnrollmentRecord_error_without_record_witness :
  let p := protocol 0 None None in
  run (UpdateEnrollmentRecord (C := plain) record1) p
  = (Returns (None, Some InvalidVersion), World _ p []) /\
  (None : slice) = None.
Proof.
  intros p. split; [reflexivity|].
  apply (UpdateEnrollmentRecord_error_without_record (T := types)
           (C := plain) p record1 None InvalidVersion (World _ p []));
    [|reflexivity].
  intros rec bytes err Hmarshal. cbn in Hmarshal. discriminate Hmarshal.
Defined.

Lemma malformed_record_is_rejected_first_witness :
  let p := protocol 1 (Some {[ 1 := Some 1 ]}) None in
  let garbage := text "garbage" in
  json.Unmarshal (C := plain) garbage = (None, Some syntax_error) /\
  run (VerifyPassword (C := plain) "pw" garbage) p
  = (Returns (None, Some syntax_error), World _ p []) /\
  run (UpdateEnrollmentRecord (C := plain) garbage) p
  = (Returns (None, Some syntax_error), World _ p []).
Proof.
  intros p garbage. split; [reflexivity|].
  apply (malformed_record_is_rejected_first (T := types) (C := plain)
           p "pw" garbage None syntax_error).
  reflexivity.
Defined.

Lemma VerifyPassword_missing_client_witness :
  let p := protocol 1 (Some {[ 1 := None ]}) None in
  lookupClient p 1 = None /\
  run (VerifyPassword (C := plain) "pw" record1) p =
  (Returns (None, Some EpochUnavailable), World _ p [LookupClient 1]).
Proof.
  intros p. split; [reflexivity|].
  apply (VerifyPassword_missing_client (T := types) (C := plain)
           p "pw" record1 decoded1); reflexivity.
Defined.

Lemma VerifyPassword_challenge_error_witness :
  let p := protocol 1 (Some {[ 1 := Some 1 ]}) None in
  let failing := answering_challenge plain (None, Some timeout) in
  run (VerifyPassword (C := failing) "pw" record1) p =
  (Returns (None,
            Some (Wrapped timeout "could not create verify password request")),
   World _ p [LookupClient 1;
              CallCreateVerifyPasswordRequest 1 (bytes_of "pw") (Some "r")]).
Proof.
  intros p failing.
  apply (VerifyPassword_challenge_error (T := types) (C := failing)
           p "pw" record1 decoded1 1 None timeout); reflexivity.
Defined.

Lemma VerifyPassword_request_error_witness :
  let p := protocol 1 (Some {[ 1 := Some 1 ]}) None in
  let down := collaborators
                {| server_epoch := 1;
                   verify_reply := (None, Some timeout);
                   decrypt_reply := (None, None) |} in
  fst (run (VerifyPassword (C := down) "pw" record1) p) =
  Returns (None, Some (Wrapped timeout "error while requesting service")).
Proof.
  intros p down.
  apply (f_equal fst
           (VerifyPassword_request_error (T := types) (C := down)
              p "pw" record1 decoded1 1 (Some "challenge") None timeout
              eq_refl eq_refl eq_refl eq_refl eq_refl)).
Defined.

Lemma EnrollAccount_request_error_witness :
  let p := protocol 1 (Some {[ 1 := Some 1 ]}) None in
  let down := answering_enrollment plain (None, Some timeout) in
  fst (run (EnrollAccount (C := down) "pw") p)
  = Returns (None, None, Some timeout).
Proof.
  intros p down.
  apply (f_equal fst
           (EnrollAccount_request_error (T := types) (C := down)
              p "pw" None timeout eq_refl)).
Defined.

Lemma EnrollAccount_nil_response_panics_witness :
  let p := protocol 1 (Some {[ 1 := Some 1 ]}) None in
  let silent := answering_enrollment plain (None, None) in
  fst (run (EnrollAccount (C := silent) "pw") p) = Panics nil_dereference.
Proof.
  intros p silent.
  apply (f_equal fst
           (EnrollAccount_nil_response_panics (T := types) (C := silent)
              p "pw" eq_refl)).
Defined.

Lemma EnrollAccount_with_echoing_service_witness :
  let p := protocol 1 (Some {[ 1 := Some 1 ]}) None in
  fst (run (EnrollAccount (C := plain) "pw") p) =
  Returns (text (envelope 1 (Some "c1:seed")), bytes_of "pw", None).
Proof.
  intros p.
  exact (EnrollAccount_with_echoing_service (T := types) (C := plain)
           p "pw"
           {| EnrollmentResponse.Version := 1;
              EnrollmentResponse.Enrollment := Some "seed" |}
           eq_refl eq_refl
           (Some "c1:seed") (bytes_of "pw")
           (text (envelope 1 (Some "c1:seed"))) eq_refl eq_refl).
Defined.

Lemma EnrollAccount_then_UpdateEnrollmentRecord_witness :
  let p := protocol 1 (Some {[ 1 := Some 1 ]}) None in
  let enrolled := text (envelope 1 (Some "c1:seed")) in
  run (UpdateEnrollmentRecord (C := plain) enrolled) (with_client p) =
  (Returns (enrolled, None), World _ (with_client p) []).
Proof.
  intros p enrolled.
  apply (EnrollAccount_then_UpdateEnrollmentRecord (T := types) (C := plain)
           p "pw" enrolled (bytes_of "pw")
           (snd (run (EnrollAccount (C := plain) "pw") p)));
    [reflexivity|].
  intros blob _. eexists. split; reflexivity.
Defined.

Lemma NewProtocol_then_EnrollAccount_witness :
  let ctx := @Context.mk types "app" (Some {[ 1 := Some 1 ]}) None 1 in
  let p := protocol 1 (Some {[ 1 := Some 1 ]}) None in
  NewProtocol (Some ctx) = (Some p, None) /\
  exists rest,
    calls (snd (run (EnrollAccount (C := plain) "pw") p)) =
    CallGetEnrollment (Some {| APIClient.AppID := "app" |})
      {| EnrollmentRequest.Version := 1 |} :: rest.
Proof.
  intros ctx p. split; [reflexivity|].
  apply (NewProtocol_then_EnrollAccount (T := types) (C := plain)
           ctx p "pw").
  reflexivity.
Defined.

End FurtherWitnesses.

(** * Migration over an incomplete chain *)

Section IncompleteChain.
Context {T : phe.types} {C : Collaborators}.
Variables (p : Protocol.t) (rec : EnrollmentRecord.t).

Local Abbreviation current := (Protocol.CurrentVersion p).
Local Abbreviation blob := (EnrollmentRecord.Enrollment rec).

Hypothesis current_int : is_int current.

(** With a token of the chain missing, the loop is left by a [return]
    that carries no record, at the first epoch [m] whose token is missing
    or whose transformation fails; the error is the missing-token error
    in the first case and the error of that transformation in the
    second. *)
Lemma update_loop_stops fuel newRec v l :
  is_int v -> (Z.to_nat (current - v) < fuel)%nat ->
  (exists k, v < k <= current /\ lookupToken p k = None) ->
  exists e m l',
    update_loop fuel rec newRec v (World _ p l) =
    (Returns (Return None (Some e)), World _ p (l ++ l')) /\
    v < m <= current /\
    (forall i, v < i < m ->
       exists token, lookupToken p i = Some token /\
                     snd (phe_UpdateRecord blob token) = None) /\
    match lookupToken p m with
    | None => e = MissingUpdateToken
    | Some token => snd (phe_UpdateRecord blob token) = Some e
    end /\
    e = default MissingUpdateToken (first_failure (transformations l')).
Proof.
  revert newRec v l.
  induction fuel as [|fuel IH]; intros newRec v l Hv Hfuel Hmiss; [lia|].
  destruct Hmiss as (k & Hk & Hnone).
  assert (Hlt : v < current) by lia.
  destruct (lookupToken p (v + 1)) as [token|] eqn:Htk.
  - rewrite (update_loop_step p rec current_int _ _ _ _ token)
      by assumption.
    destruct (phe_UpdateRecord blob token) as [next [e|]] eqn:Hup.
    + exists e, (v + 1), [LookupToken (v + 1); CallUpdateRecord blob token].
      split; [reflexivity|]. split; [lia|]. split; [intros i Hi; lia|].
      rewrite Htk, Hup. split; [reflexivity|].
      cbn. rewrite Hup. reflexivity.
    + destruct (IH next (v + 1)
                  (l ++ [LookupToken (v + 1); CallUpdateRecord blob token]))
        as (e & m & l' & Hrun & Hm & Hpre & Hat & Hfirst).
      * apply (is_int_succ p current_int); assumption.
      * lia.
      * exists k. split; [|assumption].
        destruct (Z.eq_dec k (v + 1)) as [->|]; [congruence|lia].
      * exists e, m,
          ([LookupToken (v + 1); CallUpdateRecord blob token] ++ l').
        rewrite app_assoc. split; [assumption|]. split; [lia|].
        split; [|split; [assumption|]].
        -- intros i Hi. destruct (Z.eq_dec i (v + 1)) as [->|Hne].
           ++ exists token. rewrite Hup. split; [assumption|reflexivity].
           ++ apply Hpre. lia.
        -- cbn. rewrite Hup. cbn. assumption.
  - rewrite (update_loop_missing p rec current_int) by assumption.
    exists MissingUpdateToken, (v + 1), [LookupToken (v + 1)].
    split; [reflexivity|]. split; [lia|]. split; [intros i Hi; lia|].
    rewrite Htk. split; reflexivity.
Qed.

End IncompleteChain.

Section IncompleteChainClaim.
Context {T : phe.types} {C : Collaborators}.

(** C9 (amended). For a record at an epoch below [CurrentVersion], if
    some epoch of the chain up to [CurrentVersion] has no update token,
    which includes the case of no registry of tokens at all,
    [UpdateEnrollmentRecord] fails and returns no record, the receiver
    being left as it was.  The error returned is the error of the first
    transformation of the run that failed, and [MissingUpdateToken] when
    none of them failed.  So it is [MissingUpdateToken] whenever the
    transformations for the epochs before a missing token cannot fail,
    and always when there is no registry of tokens; and it is the error
    [e'] when the transformation for an earlier epoch fails with [e'],
    all tokens up to that epoch being present and the transformations
    before it succeeding.  Success and failure of a transformation are
    taken over every blob it may be handed: the record's own blob at the
    first epoch, any blob afterwards. *)
Theorem UpdateEnrollmentRecord_incomplete_chain
    (p : Protocol.t) (oldRecord : slice) (rec : EnrollmentRecord.t) :
  json.Unmarshal oldRecord = (Some rec, None) ->
  is_int (Protocol.CurrentVersion p) ->
  is_int (EnrollmentRecord.Version rec) ->
  EnrollmentRecord.Version rec < Protocol.CurrentVersion p ->
  (exists k, EnrollmentRecord.Version rec < k <= Protocol.CurrentVersion p /\
             lookupToken p k = None) ->
  exists e calls,
    run (UpdateEnrollmentRecord oldRecord) p =
    (Returns (None, Some e), World _ p calls) /\
    e = default MissingUpdateToken (first_failure (transformations calls)) /\
    (forall k,
       EnrollmentRecord.Version rec < k <= Protocol.CurrentVersion p ->
       lookupToken p k = None ->
       (forall i token b,
          EnrollmentRecord.Version rec < i < k ->
          lookupToken p i = Some token ->
          may_receive rec i b ->
          snd (phe_UpdateRecord b token) = None) ->
       e = MissingUpdateToken) /\
    (forall j token e',
       EnrollmentRecord.Version rec < j <= Protocol.CurrentVersion p ->
       lookupToken p j = Some token ->
       (forall i, EnrollmentRecord.Version rec < i < j ->
                  lookupToken p i <> None) ->
       (forall i token_i b,
          EnrollmentRecord.Version rec < i < j ->
          lookupToken p i = Some token_i ->
          may_receive rec i b ->
          snd (phe_UpdateRecord b token_i) = None) ->
       (forall b, may_receive rec j b ->
                  snd (phe_UpdateRecord b token) = Some e') ->
       e = e') /\
    (Protocol.UpdateTokens p = None -> e = MissingUpdateToken).
Proof.
  intros Hdec Hcur Hver Hlt Hmiss.
  rewrite (UpdateEnrollmentRecord_older p oldRecord rec) by assumption.
  destruct (update_loop_stops p rec Hcur
              (S (Z.to_nat (Protocol.CurrentVersion p
                            - EnrollmentRecord.Version rec)))
              None (EnrollmentRecord.Version rec) [])
    as (e & m & calls & -> & Hm & Hpre & Hat & Hfirst);
    [assumption | lia | assumption |].
  assert (Hown : forall i,
             may_receive rec i (EnrollmentRecord.Enrollment rec))
    by (intros i _; reflexivity).
  exists e, calls. split; [reflexivity|]. split; [assumption|].
  split; [|split].
  - intros k Hk Hnone Hsafe.
    destruct (lookupToken p m) as [token|] eqn:Hlm; [|assumption].
    destruct (Z.lt_trichotomy m k) as [Hmk|[->|Hkm]].
    + rewrite (Hsafe m token (EnrollmentRecord.Enrollment rec)) in Hat
        by (lia || auto). discriminate.
    + congruence.
    + destruct (Hpre k) as (token' & Htk' & _); [lia|]. congruence.
  - intros j token e' Hj Htk Hpresent Hsafe Hfail.
    destruct (Z.lt_trichotomy m j) as [Hmj|[->|Hjm]].
    + destruct (lookupToken p m) as [token_m|] eqn:Hlm.
      * rewrite (Hsafe m token_m (EnrollmentRecord.Enrollment rec)) in Hat
          by (lia || auto). discriminate.
      * exfalso. apply (Hpresent m); [lia | assumption].
    + rewrite Htk in Hat.
      rewrite (Hfail (EnrollmentRecord.Enrollment rec)) in Hat by auto.
      congruence.
    + destruct (Hpre j) as (token' & Htk' & Hok); [lia|].
      assert (token' = token) by congruence. subst token'.
      rewrite (Hfail (EnrollmentRecord.Enrollment rec)) in Hok by auto.
      discriminate.
  - intros Hnil. rewrite (lookupToken_nil p m Hnil) in Hat. assumption.
Qed.

End IncompleteChainClaim.

Section IncompleteChainWitness.

Local Abbreviation record1 := (text (envelope 1 (Some "r"))).
Local Abbreviation decoded1 := (@EnrollmentRecord.mk types 1 (Some "r")).
Local Abbreviation plain := (collaborators (honest 1 None)).

Lemma UpdateEnrollmentRecord_incomplete_chain_witness :
  let missing := protocol 3 None (Some {[ 2 := Some 2 ]}) in
  let rejected := protocol 3 None (Some {[ 2 := Some 0 ]}) in
  json.Unmarshal (C := plain) record1 = (Some decoded1, None) /\
  lookupToken missing 3 = None /\
  lookupToken rejected 3 = None /\
  fst (run (UpdateEnrollmentRecord (C := plain) record1) missing)
  = Returns (None, Some MissingUpdateToken) /\
  fst (run (UpdateEnrollmentRecord (C := plain) record1) rejected)
  = Returns (None, Some (Foreign "phe: invalid update token")).
Proof.
  intros missing rejected.
  assert (Hint : forall z, -1 < z < 4 -> is_int z)
    by (unfold is_int, int_min, int_max; lia).
  split; [reflexivity|]. split; [reflexivity|]. split; [reflexivity|].
  split.
  - destruct (UpdateEnrollmentRecord_incomplete_chain (T := types)
                (C := plain) missing record1 decoded1)
      as (e & calls & Hrun & _ & Hmissing & _ & _);
      [ reflexivity | apply Hint; cbn; lia | apply Hint; cbn; lia
      | cbn; lia | exists 3; split; [cbn; lia | reflexivity] | ].
    rewrite Hrun. cbn [fst]. rewrite (Hmissing 3);
      [reflexivity | cbn; lia | reflexivity | ].
    intros i token b Hi Htk Hmay. cbn in Hi.
    assert (Hi2 : i = 2) by lia. subst i.
    vm_compute in Htk. injection Htk as <-.
    rewrite (Hmay eq_refl). reflexivity.
  - destruct (UpdateEnrollmentRecord_incomplete_chain (T := types)
                (C := plain) rejected record1 decoded1)
      as (e & calls & Hrun & _ & _ & Hfails & _);
      [ reflexivity | apply Hint; cbn; lia | apply Hint; cbn; lia
      | cbn; lia | exists 3; split; [cbn; lia | reflexivity] | ].
    rewrite Hrun. cbn [fst].
    rewrite (Hfails 2 0 (Foreign "phe: invalid update token"));
      [reflexivity | cbn; lia | reflexivity | | | ].
    + intros i Hi. cbn in Hi. lia.
    + intros i token b Hi. cbn in Hi. lia.
    + intros b Hmay. rewrite (Hmay eq_refl). reflexivity.
Defined.

End IncompleteChainWitness.
